(** * sql-formatter: token disambiguation, statement formatter, entry point

    A shallow embedding of

    - [src/lexer/disambiguateTokens.ts] (the five disambiguation passes),
    - [StatementFormatter] (the per-token state machine; the parts that
      decide multi-line mode, commas, logical operators and neighbour
      lookups),
    - the entry function [format] with its table of dialect formatters.

    JavaScript arrays are lists read through [tokenAt], which answers
    [None] (JavaScript's [undefined]) for every index that is negative or
    past the end.  Numbers that the code uses as indices, counters or
    widths are integers and are modelled in [Z]. *)

From Stdlib Require Import ZArith String Bool Lia.
From stdpp Require Import base list.

Open Scope string_scope.
Open Scope Z_scope.

(** ** Tokens *)

(** Modelled from the spec: the declaration of [TokenType] is in
    [token.ts], which is not part of the sources at hand.  The categories
    are the ones of the data model; [OPEN_PAREN] is the category the
    disambiguation passes test for an opening bracket. *)
Inductive TokenType : Set :=
  | RESERVED_COMMAND
  | RESERVED_BINARY_COMMAND
  | RESERVED_DEPENDENT_CLAUSE
  | RESERVED_JOIN_CONDITION
  | RESERVED_LOGICAL_OPERATOR
  | RESERVED_KEYWORD
  | RESERVED_FUNCTION_NAME
  | RESERVED_DATA_TYPE
  | RESERVED_PARAMETERIZED_DATA_TYPE
  | RESERVED_CASE_START
  | RESERVED_CASE_END
  | IDENTIFIER
  | ARRAY_IDENTIFIER
  | ARRAY_KEYWORD
  | QUOTED_IDENTIFIER
  | STRING
  | VARIABLE
  | PLACEHOLDER
  | NUMBER
  | OPERATOR
  | PROPERTY_ACCESS_OPERATOR
  | OPEN_PAREN
  | BLOCK_START
  | BLOCK_END
  | LINE_COMMENT
  | BLOCK_COMMENT
  | EOF.

Definition TokenType_eqb (a b : TokenType) : bool :=
  match a, b with
  | RESERVED_COMMAND, RESERVED_COMMAND
  | RESERVED_BINARY_COMMAND, RESERVED_BINARY_COMMAND
  | RESERVED_DEPENDENT_CLAUSE, RESERVED_DEPENDENT_CLAUSE
  | RESERVED_JOIN_CONDITION, RESERVED_JOIN_CONDITION
  | RESERVED_LOGICAL_OPERATOR, RESERVED_LOGICAL_OPERATOR
  | RESERVED_KEYWORD, RESERVED_KEYWORD
  | RESERVED_FUNCTION_NAME, RESERVED_FUNCTION_NAME
  | RESERVED_DATA_TYPE, RESERVED_DATA_TYPE
  | RESERVED_PARAMETERIZED_DATA_TYPE, RESERVED_PARAMETERIZED_DATA_TYPE
  | RESERVED_CASE_START, RESERVED_CASE_START
  | RESERVED_CASE_END, RESERVED_CASE_END
  | IDENTIFIER, IDENTIFIER
  | ARRAY_IDENTIFIER, ARRAY_IDENTIFIER
  | ARRAY_KEYWORD, ARRAY_KEYWORD
  | QUOTED_IDENTIFIER, QUOTED_IDENTIFIER
  | STRING, STRING
  | VARIABLE, VARIABLE
  | PLACEHOLDER, PLACEHOLDER
  | NUMBER, NUMBER
  | OPERATOR, OPERATOR
  | PROPERTY_ACCESS_OPERATOR, PROPERTY_ACCESS_OPERATOR
  | OPEN_PAREN, OPEN_PAREN
  | BLOCK_START, BLOCK_START
  | BLOCK_END, BLOCK_END
  | LINE_COMMENT, LINE_COMMENT
  | BLOCK_COMMENT, BLOCK_COMMENT
  | EOF, EOF => true
  | _, _ => false
  end.

(** A token object.  The passes read [type], [raw] and [text]; the
    formatter reads [type], [text], [value] and [whitespaceBefore]; the
    object spread [{ ...token, ... }] carries every other field along. *)
Record Token : Set := mkToken {
  type : TokenType;
  raw : string;
  text : string;
  value : string;
  whitespaceBefore : string;
  start : Z
}.

(** [tokens[i]] for a number [i]: [undefined] outside [0 .. length-1]. *)
Definition tokenAt (tokens : list Token) (i : Z) : option Token :=
  if i <? 0 then None else tokens !! Z.to_nat i.

(** [array.map(f)]: the callback receives the element, its index and the
    array that is being mapped (not the array under construction). *)
Definition jsMap (f : Token -> Z -> list Token -> Token) (tokens : list Token)
  : list Token :=
  imap (fun i t => f t (Z.of_nat i) tokens) tokens.

Module Lexer.

(** Modelled from the spec: [isReserved] of [token.ts] is not part of the
    sources at hand; the reserved categories are the [RESERVED_*] ones. *)
Definition isReserved (ty : TokenType) : bool :=
  match ty with
  | RESERVED_COMMAND | RESERVED_BINARY_COMMAND | RESERVED_DEPENDENT_CLAUSE
  | RESERVED_JOIN_CONDITION | RESERVED_LOGICAL_OPERATOR | RESERVED_KEYWORD
  | RESERVED_FUNCTION_NAME | RESERVED_DATA_TYPE
  | RESERVED_PARAMETERIZED_DATA_TYPE | RESERVED_CASE_START
  | RESERVED_CASE_END => true
  | _ => false
  end.

Definition isOpenParen (t : Token) : bool :=
  TokenType_eqb (type t) OPEN_PAREN && (text t =? "(")%string.

Definition isOpenBracket (t : Token) : bool :=
  TokenType_eqb (type t) OPEN_PAREN && (text t =? "[")%string.

Definition isComment (t : Token) : bool :=
  TokenType_eqb (type t) BLOCK_COMMENT || TokenType_eqb (type t) LINE_COMMENT.

(** The [while] loop of [nextNonCommentToken]: starting from [i], advance
    while [tokens[index + i * dir]] exists and is a comment; the answer is
    the final [i].  [None] only when the fuel is used up. *)
Fixpoint skipComments (fuel : nat) (tokens : list Token) (index dir i : Z)
  : option Z :=
  match fuel with
  | O => None
  | S fuel' =>
      match tokenAt tokens (index + i * dir) with
      | Some t =>
          if isComment t then skipComments fuel' tokens index dir (i + 1)
          else Some i
      | None => Some i
      end
  end.

(** [dir] is [1] or [-1].  The loop runs at most once per token and once
    more, see [skipComments_total]. *)
Definition nextNonCommentToken (tokens : list Token) (index dir : Z)
  : option Token :=
  match skipComments (S (length tokens)) tokens index dir 1 with
  | Some i => tokenAt tokens (index + i * dir)
  | None => None
  end.

Definition prevNonCommentToken (tokens : list Token) (index : Z)
  : option Token :=
  nextNonCommentToken tokens index (-1).

Definition toIdent (token : Token) : Token :=
  {| type := IDENTIFIER; raw := raw token; text := raw token;
     value := value token; whitespaceBefore := whitespaceBefore token;
     start := start token |}.

Definition withType (ty : TokenType) (token : Token) : Token :=
  {| type := ty; raw := raw token; text := text token;
     value := value token; whitespaceBefore := whitespaceBefore token;
     start := start token |}.

Definition isPropertyAccess (o : option Token) : bool :=
  match o with
  | Some t => TokenType_eqb (type t) PROPERTY_ACCESS_OPERATOR
  | None => false
  end.

Definition propertyNameKeywordToIdent (token : Token) (i : Z)
  (tokens : list Token) : Token :=
  if isReserved (type token) then
    if isPropertyAccess (prevNonCommentToken tokens i) then toIdent token
    else if isPropertyAccess (nextNonCommentToken tokens i 1) then toIdent token
    else token
  else token.

Definition funcNameToIdent (token : Token) (i : Z) (tokens : list Token)
  : Token :=
  if TokenType_eqb (type token) RESERVED_FUNCTION_NAME then
    match nextNonCommentToken tokens i 1 with
    | Some nextToken => if negb (isOpenParen nextToken) then toIdent token else token
    | None => toIdent token
    end
  else token.

Definition dataTypeToParameterizedDataType (token : Token) (i : Z)
  (tokens : list Token) : Token :=
  if TokenType_eqb (type token) RESERVED_DATA_TYPE then
    match nextNonCommentToken tokens i 1 with
    | Some nextToken =>
        if isOpenParen nextToken
        then withType RESERVED_PARAMETERIZED_DATA_TYPE token else token
    | None => token
    end
  else token.

Definition identToArrayIdent (token : Token) (i : Z) (tokens : list Token)
  : Token :=
  if TokenType_eqb (type token) IDENTIFIER then
    match nextNonCommentToken tokens i 1 with
    | Some nextToken =>
        if isOpenBracket nextToken then withType ARRAY_IDENTIFIER token else token
    | None => token
    end
  else token.

Definition dataTypeToArrayKeyword (token : Token) (i : Z) (tokens : list Token)
  : Token :=
  if TokenType_eqb (type token) RESERVED_DATA_TYPE then
    match nextNonCommentToken tokens i 1 with
    | Some nextToken =>
        if isOpenBracket nextToken then withType ARRAY_KEYWORD token else token
    | None => token
    end
  else token.

Definition disambiguateTokens (tokens : list Token) : list Token :=
  jsMap dataTypeToArrayKeyword
    (jsMap identToArrayIdent
       (jsMap dataTypeToParameterizedDataType
          (jsMap funcNameToIdent
             (jsMap propertyNameKeywordToIdent tokens)))).

End Lexer.

(** ** The statement formatter *)

Module Formatter.

Inductive KeywordCase : Set := KeywordPreserve | KeywordUpper | KeywordLower.
Inductive IndentStyle : Set := Standard | TabularLeft | TabularRight.
Inductive LogicalOperatorNewline : Set := Before | After.

(** [multilineLists]: one of three words, or a number. *)
Inductive MultilineLists : Set :=
  | Always
  | Avoid
  | ExpressionWidth
  | MaxClauses (n : Z).

(** The fields of [cfg] that the modelled methods read. *)
Record FormatOptions : Set := mkOptions {
  keywordCase : KeywordCase;
  indentStyle : IndentStyle;
  multilineLists : MultilineLists;
  logicalOperatorNewline : LogicalOperatorNewline;
  expressionWidth : Z;
  denseOperators : bool;
  newlineBeforeSemicolon : bool
}.

(** What the formatter imports from modules that are not part of the
    sources at hand ([token], [tabularStyle], [config], [utils]) and the
    string methods it calls.  They are taken as they come: nothing is
    assumed about them beyond their types. *)
Record Imports : Type := mkImports {
  isReserved : Token -> bool;
  isCommand : Token -> bool;
  isToken_AS : Token -> bool;
  isToken_AND : Token -> bool;
  isToken_BETWEEN : Token -> bool;
  isToken_CASE : Token -> bool;
  isToken_LIMIT : Token -> bool;
  isToken_SELECT : Token -> bool;
  EOF_TOKEN : Token;
  toTabularToken : Token -> IndentStyle -> Token;
  isTabularStyle : FormatOptions -> bool;
  equalizeWhitespace : string -> string;
  toUpperCase : string -> string;
  toLowerCase : string -> string
}.

(** The formatter writes through two collaborators, the string builder
    [query] and [indentation]; their classes are not part of the sources
    at hand, so the model records the calls made on them, in order. *)
Inductive Call : Set :=
  | AddWithSpaces (s : string)
  | AddWithSpaceBefore (s : string)
  | AddWithSpaceAfter (s : string)
  | AddWithoutSpaces (s : string)
  | AddNewline
  | DecreaseTopLevel
  | IncreaseTopLevel
  | IncreaseBlockLevel.

(** The fields of a [StatementFormatter].  [inlineBlockActive] stands for
    the answer of [inlineBlock.isActive()]. *)
Record State : Set := mkState {
  cfg : FormatOptions;
  tokens : list Token;
  index : Z;
  currentNewline : bool;
  previousReservedToken : Token;
  previousCommandToken : Token;
  inlineBlockActive : bool;
  calls : list Call
}.

Definition call (c : Call) (st : State) : State :=
  {| cfg := cfg st; tokens := tokens st; index := index st;
     currentNewline := currentNewline st;
     previousReservedToken := previousReservedToken st;
     previousCommandToken := previousCommandToken st;
     inlineBlockActive := inlineBlockActive st;
     calls := calls st ++ [c] |}.

Definition setCurrentNewline (b : bool) (st : State) : State :=
  {| cfg := cfg st; tokens := tokens st; index := index st;
     currentNewline := b;
     previousReservedToken := previousReservedToken st;
     previousCommandToken := previousCommandToken st;
     inlineBlockActive := inlineBlockActive st;
     calls := calls st |}.

Definition setPreviousReservedToken (t : Token) (st : State) : State :=
  {| cfg := cfg st; tokens := tokens st; index := index st;
     currentNewline := currentNewline st;
     previousReservedToken := t;
     previousCommandToken := previousCommandToken st;
     inlineBlockActive := inlineBlockActive st;
     calls := calls st |}.

Definition setPreviousCommandToken (t : Token) (st : State) : State :=
  {| cfg := cfg st; tokens := tokens st; index := index st;
     currentNewline := currentNewline st;
     previousReservedToken := previousReservedToken st;
     previousCommandToken := t;
     inlineBlockActive := inlineBlockActive st;
     calls := calls st |}.

(** [array.slice(start, end)]: negative arguments count from the end, both
    are clamped to the array, a missing [end] is the length. *)
Definition slice (l : list Token) (start : Z) (end_ : option Z) : list Token :=
  let len := Z.of_nat (length l) in
  let rel z := if z <? 0 then Z.max (len + z) 0 else Z.min z len in
  let k := rel start in
  let final := match end_ with Some e => rel e | None => len end in
  take (Z.to_nat (final - k)) (drop (Z.to_nat k) l).

(** [array.findIndex(p)]: the first index whose element satisfies [p],
    [-1] when there is none. *)
Fixpoint findIndexFrom (p : Token -> bool) (l : list Token) (i : Z) : Z :=
  match l with
  | [] => -1
  | t :: rest => if p t then i else findIndexFrom p rest (i + 1)
  end.

Definition findIndex (p : Token -> bool) (l : list Token) : Z :=
  findIndexFrom p l 0.

Section Methods.

Variable imp : Imports.

Definition show (st : State) (token : Token) : string :=
  if isReserved imp token then
    match keywordCase (cfg st) with
    | KeywordPreserve => equalizeWhitespace imp (text token)
    | KeywordUpper => equalizeWhitespace imp (toUpperCase imp (text token))
    | KeywordLower => equalizeWhitespace imp (toLowerCase imp (text token))
    end
  else value token.

Definition getPreviousReservedToken (st : State) : Token :=
  previousReservedToken st.

Definition isWithinSelect (st : State) : bool :=
  isToken_SELECT imp (previousCommandToken st).

(** [this.tokens[this.index - n] || EOF_TOKEN]; a token object is never
    falsy, so the right operand is taken exactly when the lookup is
    [undefined]. *)
Definition tokenLookBehind (st : State) (n : Z) : Token :=
  match tokenAt (tokens st) (index st - n) with
  | Some t => t
  | None => EOF_TOKEN imp
  end.

Definition tokenLookAhead (st : State) (n : Z) : Token :=
  match tokenAt (tokens st) (index st + n) with
  | Some t => t
  | None => EOF_TOKEN imp
  end.

Definition tokensUntilNextCommandOrQueryEnd (st : State) : list Token :=
  let tail := slice (tokens st) (index st + 1) None in
  slice tail 0
    (if (length tail =? 0)%nat then None
     else Some (findIndex (fun token => isCommand imp token || (value token =? ";")%string) tail)).

Fixpoint countClausesFrom (tokens : list Token) (count openBlocks : Z) : Z :=
  match tokens with
  | [] => count
  | t :: rest =>
      let count := if (value t =? ",")%string && (openBlocks =? 0) then count + 1 else count in
      let openBlocks := if TokenType_eqb (type t) BLOCK_START then openBlocks + 1 else openBlocks in
      let openBlocks := if TokenType_eqb (type t) BLOCK_END then openBlocks - 1 else openBlocks in
      countClausesFrom rest count openBlocks
  end.

Definition countClauses (tokens : list Token) : Z :=
  countClausesFrom tokens 1 0.

(** The length of the template string.  Lengths are counted in the
    characters of the model's strings, and [whitespaceBefore] is taken to
    be present on the command token. *)
Definition inlineWidth (token : Token) (tokens : list Token) : Z :=
  let tokensString :=
    String.concat ""
      (map (fun t => if (value t =? ",")%string then value t ++ " " else value t) tokens) in
  Z.of_nat (String.length (whitespaceBefore token ++ value token ++ " " ++ tokensString)).

Definition checkNewline (st : State) (token : Token) : bool :=
  let nextTokens := tokensUntilNextCommandOrQueryEnd st in
  if isWithinSelect st && existsb (isToken_CASE imp) nextTokens then true
  else
    match multilineLists (cfg st) with
    | Always => true
    | Avoid => false
    | ExpressionWidth => inlineWidth token nextTokens >? expressionWidth (cfg st)
    | MaxClauses n =>
        (countClauses nextTokens >? n)
        || (inlineWidth token nextTokens >? expressionWidth (cfg st))
    end.

Definition formatLineComment (token : Token) (st : State) : State :=
  call AddNewline (call (AddWithSpaceBefore (show st token)) st).

Definition formatCommand (token : Token) (st : State) : State :=
  let st := call DecreaseTopLevel st in
  let st := call AddNewline st in
  let st :=
    if isTabularStyle imp (cfg st) then
      if negb (value (tokenLookAhead st 1) =? "(")%string
      then call IncreaseTopLevel st else st
    else call IncreaseTopLevel st in
  let st := call (AddWithSpaceBefore (show st token)) st in
  if currentNewline st && negb (isTabularStyle imp (cfg st))
  then call AddNewline st
  else call (AddWithSpaceBefore " ") st.

Definition formatDependentClause (token : Token) (st : State) : State :=
  call (AddWithSpaces (show st token)) (call AddNewline st).

Definition formatJoinCondition (token : Token) (st : State) : State :=
  call (AddWithSpaces (show st token)) st.

Definition formatComma (token : Token) (st : State) : State :=
  let st := call (AddWithSpaceAfter (show st token)) st in
  if inlineBlockActive st then st
  else if isToken_LIMIT imp (getPreviousReservedToken st) then st
  else if currentNewline st then call AddNewline st
  else st.

Definition formatQuerySeparator (token : Token) (st : State) : State :=
  let st := if newlineBeforeSemicolon (cfg st) then call AddNewline st else st in
  call (AddWithoutSpaces (show st token)) st.

Definition includes (l : list string) (s : string) : bool :=
  existsb (String.eqb s) l.

Definition formatOperator (token : Token) (st : State) : State :=
  if (value token =? ",")%string then formatComma token st
  else if (value token =? ";")%string then formatQuerySeparator token st
  else if includes ["$"; "["] (value token)
  then call (AddWithSpaceBefore (show st token)) st
  else if includes [":"; "]"] (value token)
  then call (AddWithSpaceAfter (show st token)) st
  else if includes ["."; "{"; "}"; "`"] (value token)
  then call (AddWithoutSpaces (show st token)) st
  else if denseOperators (cfg st)
          && negb (TokenType_eqb (type (tokenLookBehind st 1)) RESERVED_COMMAND)
  then call (AddWithoutSpaces (show st token)) st
  else call (AddWithSpaces (show st token)) st.

Definition formatLogicalOperator (token : Token) (st : State) : State :=
  if isToken_AND imp token && isToken_BETWEEN imp (tokenLookBehind st 2)
  then call (AddWithSpaces (show st token)) st
  else
    let st := if isTabularStyle imp (cfg st) then call DecreaseTopLevel st else st in
    match logicalOperatorNewline (cfg st) with
    | Before =>
        let st := if currentNewline st then call AddNewline st else st in
        call (AddWithSpaces (show st token)) st
    | After =>
        let st := call (AddWithSpaceBefore (show st token)) st in
        if currentNewline st then call AddNewline st else st
    end.

Definition formatCaseStart (token : Token) (st : State) : State :=
  let st := call (AddWithSpaces (show st token)) st in
  let st := call IncreaseBlockLevel st in
  match multilineLists (cfg st) with
  | Always => call AddNewline st
  | _ => st
  end.

(** The head of the loop body of [format]: the bookkeeping of reserved
    tokens, which also decides the token that is dispatched. *)
Definition noteReserved (token : Token) (st : State) : State * Token :=
  if isReserved imp token then
    let st := setPreviousReservedToken token st in
    let token :=
      if TokenType_eqb (type token) RESERVED_LOGICAL_OPERATOR
         || TokenType_eqb (type token) RESERVED_DEPENDENT_CLAUSE
         || TokenType_eqb (type token) RESERVED_COMMAND
         || TokenType_eqb (type token) RESERVED_BINARY_COMMAND
      then toTabularToken imp token (indentStyle (cfg st)) else token in
    let st :=
      if TokenType_eqb (type token) RESERVED_COMMAND
      then setPreviousCommandToken token st else st in
    (st, token)
  else (st, token).

(** One turn of the loop of [format] on the token at [index], for the
    categories whose handlers are modelled above.  [None] stands for the
    other categories (their handlers call into the alias engine, the
    inline-block detector or the parameter table) and for an index
    outside the statement. *)
Definition formatToken (st : State) : option State :=
  match tokenAt (tokens st) (index st) with
  | None => None
  | Some token =>
      let '(st, token) := noteReserved token st in
      match type token with
      | LINE_COMMENT => Some (formatLineComment token st)
      | RESERVED_COMMAND =>
          let st := setCurrentNewline (checkNewline st token) st in
          Some (formatCommand token st)
      | RESERVED_DEPENDENT_CLAUSE => Some (formatDependentClause token st)
      | RESERVED_JOIN_CONDITION => Some (formatJoinCondition token st)
      | RESERVED_LOGICAL_OPERATOR => Some (formatLogicalOperator token st)
      | RESERVED_CASE_START => Some (formatCaseStart token st)
      | OPERATOR => Some (formatOperator token st)
      | _ => None
      end
  end.

(** The field initialisers of the class.  The inline-block detector is
    taken to start inactive. *)
Definition create (options : FormatOptions) : State :=
  {| cfg := options; tokens := []; index := -1;
     currentNewline := true;
     previousReservedToken := EOF_TOKEN imp;
     previousCommandToken := EOF_TOKEN imp;
     inlineBlockActive := false;
     calls := [] |}.

(** The loop counter of [format]: [begin] is its first line and the
    initialisation of the loop, [atIndex] a later turn. *)
Definition atIndex (i : Z) (st : State) : State :=
  {| cfg := cfg st; tokens := tokens st; index := i;
     currentNewline := currentNewline st;
     previousReservedToken := previousReservedToken st;
     previousCommandToken := previousCommandToken st;
     inlineBlockActive := inlineBlockActive st;
     calls := calls st |}.

Definition begin (statement : list Token) (st : State) : State :=
  {| cfg := cfg st; tokens := statement; index := 0;
     currentNewline := currentNewline st;
     previousReservedToken := previousReservedToken st;
     previousCommandToken := previousCommandToken st;
     inlineBlockActive := inlineBlockActive st;
     calls := calls st |}.

(** The words of the documentation of [tokensUntilNextCommandOrQueryEnd],
    to compare the method with: all tokens between the current token and
    the next reserved command or the end of the query. *)
Fixpoint upTo (stop : Token -> bool) (l : list Token) : list Token :=
  match l with
  | [] => []
  | t :: rest => if stop t then [] else t :: upTo stop rest
  end.

Definition documentedTokensUntilNextCommandOrQueryEnd (st : State)
  : list Token :=
  upTo (fun token => isCommand imp token || (value token =? ";")%string)
    (drop (Z.to_nat (index st + 1)) (tokens st)).

End Methods.

End Formatter.

(** ** The entry point *)

Module Api.

(** The formatter classes the entry point imports, and any other class a
    caller passes as [language]. *)
Inductive Formatter : Set :=
  | BigQueryFormatter
  | Db2Formatter
  | HiveFormatter
  | MariaDbFormatter
  | MySqlFormatter
  | N1qlFormatter
  | PlSqlFormatter
  | PostgreSqlFormatter
  | RedshiftFormatter
  | SparkFormatter
  | SqliteFormatter
  | SqlFormatter
  | TrinoFormatter
  | TransactSqlFormatter
  | SingleStoreDbFormatter
  | SnowflakeFormatter
  | OtherFormatter (id : nat).

(** The object [formatters]; the order of the entries is the order of its
    keys. *)
Definition formatters : list (string * Formatter) :=
  [ ("bigquery", BigQueryFormatter);
    ("db2", Db2Formatter);
    ("hive", HiveFormatter);
    ("mariadb", MariaDbFormatter);
    ("mysql", MySqlFormatter);
    ("n1ql", N1qlFormatter);
    ("plsql", PlSqlFormatter);
    ("postgresql", PostgreSqlFormatter);
    ("redshift", RedshiftFormatter);
    ("singlestoredb", SingleStoreDbFormatter);
    ("snowflake", SnowflakeFormatter);
    ("spark", SparkFormatter);
    ("sql", SqlFormatter);
    ("sqlite", SqliteFormatter);
    ("transactsql", TransactSqlFormatter);
    ("trino", TrinoFormatter);
    ("tsql", TransactSqlFormatter) ].

(** [Object.keys(formatters)] *)
Definition supportedDialects : list string := map fst formatters.

(** [formatters[name]] *)
Fixpoint lookupFormatter (name : string) (table : list (string * Formatter))
  : option Formatter :=
  match table with
  | [] => None
  | (key, cls) :: rest =>
      if (name =? key)%string then Some cls else lookupFormatter name rest
  end.

(** [language] is a dialect name or a formatter class. *)
Inductive Language : Set :=
  | LanguageName (name : string)
  | LanguageClass (cls : Formatter).

Record FormatOptions : Set := mkFormatOptions {
  language : Language;
  tabWidth : Z;
  useTabs : bool;
  keywordCase : string;
  indentStyle : string;
  logicalOperatorNewline : string;
  tabulateAlias : bool;
  commaPosition : string;
  expressionWidth : Z;
  linesBetweenQueries : Z;
  denseOperators : bool;
  newlineBeforeSemicolon : bool
}.

(** [Partial<FormatOptions>]: [None] is a key the caller left out. *)
Record PartialFormatOptions : Set := mkPartial {
  p_language : option Language;
  p_tabWidth : option Z;
  p_useTabs : option bool;
  p_keywordCase : option string;
  p_indentStyle : option string;
  p_logicalOperatorNewline : option string;
  p_tabulateAlias : option bool;
  p_commaPosition : option string;
  p_expressionWidth : option Z;
  p_linesBetweenQueries : option Z;
  p_denseOperators : option bool;
  p_newlineBeforeSemicolon : option bool
}.

Definition defaultOptions : FormatOptions :=
  {| language := LanguageName "sql";
     tabWidth := 2;
     useTabs := false;
     keywordCase := "preserve";
     indentStyle := "standard";
     logicalOperatorNewline := "before";
     tabulateAlias := false;
     commaPosition := "after";
     expressionWidth := 50;
     linesBetweenQueries := 1;
     denseOperators := false;
     newlineBeforeSemicolon := false |}.

(** [{ ...defaults, ...cfg }] *)
Definition spread (defaults : FormatOptions) (c : PartialFormatOptions)
  : FormatOptions :=
  {| language := default (language defaults) (p_language c);
     tabWidth := default (tabWidth defaults) (p_tabWidth c);
     useTabs := default (useTabs defaults) (p_useTabs c);
     keywordCase := default (keywordCase defaults) (p_keywordCase c);
     indentStyle := default (indentStyle defaults) (p_indentStyle c);
     logicalOperatorNewline :=
       default (logicalOperatorNewline defaults) (p_logicalOperatorNewline c);
     tabulateAlias := default (tabulateAlias defaults) (p_tabulateAlias c);
     commaPosition := default (commaPosition defaults) (p_commaPosition c);
     expressionWidth := default (expressionWidth defaults) (p_expressionWidth c);
     linesBetweenQueries :=
       default (linesBetweenQueries defaults) (p_linesBetweenQueries c);
     denseOperators := default (denseOperators defaults) (p_denseOperators c);
     newlineBeforeSemicolon :=
       default (newlineBeforeSemicolon defaults) (p_newlineBeforeSemicolon c) |}.

Inductive Error : Set :=
  | ConfigError (message : string)
  | InputError (message : string)
  | TypeError (message : string)
  | OtherError (message : string).

Inductive Result (A : Type) : Type :=
  | Ok (a : A)
  | Throw (e : Error).

Arguments Ok {A} a.
Arguments Throw {A} e.

(** The argument [query] as it arrives at run time. *)
Inductive JsValue : Set :=
  | JsString (s : string)
  | JsUndefined
  | JsOther.

(** Modelled from the spec: [validateQuery] is imported from
    [validateConfigs], which is not part of the sources at hand.  It
    rejects, with an [InputError], a query that is not a string or is
    absent. *)
Definition validateQuery (query : JsValue) : option Error :=
  match query with
  | JsString _ => None
  | _ => Some (InputError "Invalid query argument")
  end.

Definition includes (l : list string) (s : string) : bool :=
  existsb (String.eqb s) l.

(** The guard on the dialect name, the second statement of [format]. *)
Definition unsupportedDialect (cfg : PartialFormatOptions) : option Error :=
  match p_language cfg with
  | Some (LanguageName name) =>
      if negb (includes supportedDialects name)
      then Some (ConfigError ("Unsupported SQL dialect: " ++ name))
      else None
  | _ => None
  end.

Section Format.

(** [validateConfig] and the formatter classes are not part of the sources
    at hand; [runFormatter cls options query] stands for
    [new cls(options).format(query)]. *)
Variable validateConfig : FormatOptions -> Result FormatOptions.
Variable runFormatter : Formatter -> FormatOptions -> JsValue -> Result string.

(** A call without options is the call with [cfg = defaultOptions]. *)
Definition format (query : JsValue) (cfg : PartialFormatOptions)
  : Result string :=
  match validateQuery query with
  | Some e => Throw e
  | None =>
      match unsupportedDialect cfg with
      | Some e => Throw e
      | None =>
          match validateConfig (spread defaultOptions cfg) with
          | Throw e => Throw e
          | Ok options =>
              match language options with
              | LanguageName name =>
                  match lookupFormatter name formatters with
                  | Some cls => runFormatter cls options query
                  | None => Throw (TypeError "FormatterCls is not a constructor")
                  end
              | LanguageClass cls => runFormatter cls options query
              end
          end
      end
  end.

End Format.

End Api.

(** ** Sample data *)

Module Samples.

(** A token whose raw text, text and value are the same string. *)
Definition tok (ty : TokenType) (s : string) : Token :=
  {| type := ty; raw := s; text := s; value := s;
     whitespaceBefore := ""; start := 0 |}.

(** [count /* c */ (] *)
Definition countCall : list Token :=
  [ tok RESERVED_FUNCTION_NAME "count"; tok BLOCK_COMMENT "/* c */";
    tok OPEN_PAREN "(" ].

(** [count /* c */ \[] *)
Definition countIndexed : list Token :=
  [ tok RESERVED_FUNCTION_NAME "count"; tok BLOCK_COMMENT "/* c */";
    tok OPEN_PAREN "[" ].

(** [a . /* c */ select \[] and [select from t] *)
Definition dottedSelect : list Token :=
  [ tok IDENTIFIER "a"; tok PROPERTY_ACCESS_OPERATOR ".";
    tok BLOCK_COMMENT "/* c */"; tok RESERVED_COMMAND "select";
    tok OPEN_PAREN "[" ].

Definition selectFrom : list Token :=
  [ tok RESERVED_COMMAND "select"; tok BLOCK_COMMENT "/* c */";
    tok RESERVED_COMMAND "from"; tok IDENTIFIER "t" ].

(** A reserved token as the lexer makes it: [text] as written, [value]
    in upper case. *)
Definition kw (ty : TokenType) (written upper : string) : Token :=
  {| type := ty; raw := written; text := written; value := upper;
     whitespaceBefore := ""; start := 0 |}.

(** One way to fill in the imports of the formatter. *)
Definition isValue (ty : TokenType) (v : string) (t : Token) : bool :=
  TokenType_eqb (type t) ty && (value t =? v)%string.

Definition imports : Formatter.Imports :=
  {| Formatter.isReserved := fun t => Lexer.isReserved (type t);
     Formatter.isCommand := fun t => TokenType_eqb (type t) RESERVED_COMMAND;
     Formatter.isToken_AS := isValue RESERVED_KEYWORD "AS";
     Formatter.isToken_AND := isValue RESERVED_LOGICAL_OPERATOR "AND";
     Formatter.isToken_BETWEEN := isValue RESERVED_KEYWORD "BETWEEN";
     Formatter.isToken_CASE := isValue RESERVED_CASE_START "CASE";
     Formatter.isToken_LIMIT := isValue RESERVED_COMMAND "LIMIT";
     Formatter.isToken_SELECT := isValue RESERVED_COMMAND "SELECT";
     Formatter.EOF_TOKEN := tok EOF "";
     Formatter.toTabularToken := fun t _ => t;
     Formatter.isTabularStyle := fun options =>
       match Formatter.indentStyle options with
       | Formatter.Standard => false
       | _ => true
       end;
     Formatter.equalizeWhitespace := fun s => s;
     Formatter.toUpperCase := fun s => s;
     Formatter.toLowerCase := fun s => s |}.

Definition options (m : Formatter.MultilineLists) (width : Z)
  : Formatter.FormatOptions :=
  {| Formatter.keywordCase := Formatter.KeywordPreserve;
     Formatter.indentStyle := Formatter.Standard;
     Formatter.multilineLists := m;
     Formatter.logicalOperatorNewline := Formatter.Before;
     Formatter.expressionWidth := width;
     Formatter.denseOperators := false;
     Formatter.newlineBeforeSemicolon := false |}.

Definition SELECT : Token := kw RESERVED_COMMAND "select" "SELECT".
Definition comma : Token := tok OPERATOR ",".

(** [select a, b] *)
Definition selectAB : list Token :=
  [ SELECT; tok IDENTIFIER "a"; comma; tok IDENTIFIER "b" ].

(** [select case] *)
Definition selectCase : list Token :=
  [ SELECT; kw RESERVED_CASE_START "case" "CASE" ].

(** [select case when a then 1 else 2 end from t] *)
Definition selectCaseFrom : list Token :=
  [ SELECT; kw RESERVED_CASE_START "case" "CASE";
    kw RESERVED_DEPENDENT_CLAUSE "when" "WHEN"; tok IDENTIFIER "a";
    kw RESERVED_KEYWORD "then" "THEN"; tok NUMBER "1";
    kw RESERVED_DEPENDENT_CLAUSE "else" "ELSE"; tok NUMBER "2";
    kw RESERVED_CASE_END "end" "END";
    kw RESERVED_COMMAND "from" "FROM"; tok IDENTIFIER "t" ].

(** [where x between 1 and 2] *)
Definition whereBetween : list Token :=
  [ kw RESERVED_COMMAND "where" "WHERE"; tok IDENTIFIER "x";
    kw RESERVED_KEYWORD "between" "BETWEEN"; tok NUMBER "1";
    kw RESERVED_LOGICAL_OPERATOR "and" "AND"; tok NUMBER "2" ].

(** The formatter at the start of a statement. *)
Definition starting (m : Formatter.MultilineLists) (width : Z)
  (statement : list Token) : Formatter.State :=
  Formatter.begin statement (Formatter.create imports (options m width)).

(** Options that name a language and leave everything else out. *)
Definition onlyLanguage (name : string) : Api.PartialFormatOptions :=
  {| Api.p_language := Some (Api.LanguageName name);
     Api.p_tabWidth := None; Api.p_useTabs := None;
     Api.p_keywordCase := None; Api.p_indentStyle := None;
     Api.p_logicalOperatorNewline := None; Api.p_tabulateAlias := None;
     Api.p_commaPosition := None; Api.p_expressionWidth := None;
     Api.p_linesBetweenQueries := None; Api.p_denseOperators := None;
     Api.p_newlineBeforeSemicolon := None |}.

(** A validation that accepts everything and a formatter that echoes. *)
Definition acceptAll (o : Api.FormatOptions) : Api.Result Api.FormatOptions :=
  Api.Ok o.

Definition echo (cls : Api.Formatter) (o : Api.FormatOptions)
  (query : Api.JsValue) : Api.Result string :=
  match query with
  | Api.JsString s => Api.Ok s
  | _ => Api.Throw (Api.TypeError "query is not a string")
  end.

End Samples.

(** ** Vocabulary of the properties *)

(** How many turns the loop can still take from position [pos]. *)
Definition turnsLeft (l : list Token) (dir pos : Z) : Z :=
  if (pos <? 0) || (Z.of_nat (length l) <=? pos) then 0
  else if dir =? 1 then Z.of_nat (length l) - pos else pos + 1.

(** The categories the passes look for in a neighbour.  No pass rewrites a
    token of such a category, and none produces one. *)
Definition anchor (ty : TokenType) : bool :=
  match ty with
  | LINE_COMMENT | BLOCK_COMMENT | OPEN_PAREN | PROPERTY_ACCESS_OPERATOR => true
  | _ => false
  end.

(** [t'] may differ from [t] only when neither is an anchor. *)
Definition keepsAnchor (t t' : Token) : Prop :=
  anchor (type t) || anchor (type t') = true -> t' = t.

Definition keepAnchors (l l' : list Token) : Prop :=
  length l = length l' /\
  forall i t t', l !! i = Some t -> l' !! i = Some t' -> keepsAnchor t t'.

(** The shape of every rewrite: the token itself, the token as an
    identifier, or the token under a new category. *)
Inductive rewritten (t : Token) : Token -> Prop :=
  | rw_same : rewritten t t
  | rw_ident : Lexer.isReserved (type t) = true -> rewritten t (Lexer.toIdent t)
  | rw_parameterized :
      type t = RESERVED_DATA_TYPE ->
      rewritten t (Lexer.withType RESERVED_PARAMETERIZED_DATA_TYPE t)
  | rw_array_ident :
      type t = IDENTIFIER -> rewritten t (Lexer.withType ARRAY_IDENTIFIER t)
  | rw_array_keyword :
      type t = RESERVED_DATA_TYPE -> rewritten t (Lexer.withType ARRAY_KEYWORD t).

Definition isPass (f : Token -> Z -> list Token -> Token) : Prop :=
  forall t i l, rewritten t (f t i l).

(** What a rewrite keeps of a token. *)
Definition sameSource (t t' : Token) : Prop :=
  raw t' = raw t /\ value t' = value t /\
  whitespaceBefore t' = whitespaceBefore t /\ start t' = start t.

(** What a chain of rewrites can do to the token [t]. *)
Definition framed (t t' : Token) : Prop :=
  sameSource t t' /\
  (text t' = text t \/
   (Lexer.isReserved (type t) = true /\ text t' = raw t /\
    (type t' = IDENTIFIER \/ type t' = ARRAY_IDENTIFIER))) /\
  (Lexer.isReserved (type t') = true -> Lexer.isReserved (type t) = true).

(** The commas of a token list that stand outside every block: [depth]
    is the number of blocks opened and not yet closed before the token. *)
Fixpoint commasAtDepthZero (l : list Token) (depth : Z) : Z :=
  match l with
  | [] => 0
  | t :: rest =>
      (if (value t =? ",")%string && (depth =? 0) then 1 else 0)
      + commasAtDepthZero rest
          (depth + (if TokenType_eqb (type t) BLOCK_START then 1 else 0)
                 - (if TokenType_eqb (type t) BLOCK_END then 1 else 0))
  end.

(** The closed set of dialect tags, as the documentation lists it. *)
Definition documentedDialects : list string :=
  [ "sql"; "bigquery"; "db2"; "hive"; "mariadb"; "mysql"; "n1ql"; "plsql";
    "postgresql"; "redshift"; "singlestoredb"; "snowflake"; "spark";
    "sqlite"; "transactsql"; "tsql"; "trino" ].

(** ** Further code and vocabulary *)

(** [formatStandardSQL]: the entry point that always runs the formatter of
    standard SQL; it validates the query and the merged options like
    [format], and has no guard on the dialect name. *)
Definition formatStandardSQL
  (validateConfig : Api.FormatOptions -> Api.Result Api.FormatOptions)
  (runFormatter : Api.Formatter -> Api.FormatOptions -> Api.JsValue
                  -> Api.Result string)
  (query : Api.JsValue) (cfg : Api.PartialFormatOptions) : Api.Result string :=
  match Api.validateQuery query with
  | Some e => Api.Throw e
  | None =>
      match validateConfig (Api.spread Api.defaultOptions cfg) with
      | Api.Throw e => Api.Throw e
      | Api.Ok options => runFormatter Api.SqlFormatter options query
      end
  end.

Definition notComment (t : Token) : bool := negb (Lexer.isComment t).

(** The five callbacks of [disambiguateTokens] applied in turn to one
    token, each of them reading the same array. *)
Definition disambiguateAt (token : Token) (i : Z) (tokens : list Token) : Token :=
  Lexer.dataTypeToArrayKeyword
    (Lexer.identToArrayIdent
       (Lexer.dataTypeToParameterizedDataType
          (Lexer.funcNameToIdent
             (Lexer.propertyNameKeywordToIdent token i tokens) i tokens)
          i tokens)
       i tokens)
    i tokens.

(** The answer of a test on a neighbour that may be missing. *)
Definition answers (p : Token -> bool) (o : option Token) : bool :=
  match o with Some t => p t | None => false end.

(** Is the nearest non-comment token before or after index [i] a
    property-access operator? *)
Definition dotNextTo (l : list Token) (i : Z) : bool :=
  Lexer.isPropertyAccess (Lexer.prevNonCommentToken l i)
  || Lexer.isPropertyAccess (Lexer.nextNonCommentToken l i 1).

(** The five rewrites of one token, given the three answers about its
    neighbours. *)
Definition rewriteWith (t : Token) (dot paren bracket : bool) : Token :=
  let t1 := if Lexer.isReserved (type t) && dot then Lexer.toIdent t else t in
  let t2 := if TokenType_eqb (type t1) RESERVED_FUNCTION_NAME && negb paren
            then Lexer.toIdent t1 else t1 in
  let t3 := if TokenType_eqb (type t2) RESERVED_DATA_TYPE && paren
            then Lexer.withType RESERVED_PARAMETERIZED_DATA_TYPE t2 else t2 in
  let t4 := if TokenType_eqb (type t3) IDENTIFIER && bracket
            then Lexer.withType ARRAY_IDENTIFIER t3 else t3 in
  if TokenType_eqb (type t4) RESERVED_DATA_TYPE && bracket
  then Lexer.withType ARRAY_KEYWORD t4 else t4.

(** The test that ends the collected tokens, and the tokens after the
    current one. *)
Definition isStop (imp : Formatter.Imports) (token : Token) : bool :=
  Formatter.isCommand imp token || (value token =? ";")%string.

Definition tokensAfter (st : Formatter.State) : list Token :=
  drop (Z.to_nat (Formatter.index st + 1)) (Formatter.tokens st).

Definition isComma (t : Token) : bool := (value t =? ",")%string.

(** The counter [openBlocks] of [countClauses] after one token, and after
    a list of tokens. *)
Definition depthStep (openBlocks : Z) (t : Token) : Z :=
  let openBlocks :=
    if TokenType_eqb (type t) BLOCK_START then openBlocks + 1 else openBlocks in
  if TokenType_eqb (type t) BLOCK_END then openBlocks - 1 else openBlocks.

Fixpoint depthAfter (l : list Token) (openBlocks : Z) : Z :=
  match l with
  | [] => openBlocks
  | t :: rest => depthAfter rest (depthStep openBlocks t)
  end.

(** Every token of [l] is met with at least one block open. *)
Fixpoint staysInside (l : list Token) (openBlocks : Z) : bool :=
  match l with
  | [] => true
  | t :: rest => (1 <=? openBlocks) && staysInside rest (depthStep openBlocks t)
  end.

(** What one token adds to the inline width: its value, and one more
    character after a comma. *)
Definition tokenWidth (t : Token) : Z :=
  Z.of_nat (String.length (value t)) + (if isComma t then 1 else 0).

Fixpoint tokensWidth (l : list Token) : Z :=
  match l with
  | [] => 0
  | t :: rest => tokenWidth t + tokensWidth rest
  end.

(** The same formatter under another [expressionWidth]. *)
Definition withExpressionWidth (width : Z) (st : Formatter.State)
  : Formatter.State :=
  {| Formatter.cfg :=
       {| Formatter.keywordCase := Formatter.keywordCase (Formatter.cfg st);
          Formatter.indentStyle := Formatter.indentStyle (Formatter.cfg st);
          Formatter.multilineLists := Formatter.multilineLists (Formatter.cfg st);
          Formatter.logicalOperatorNewline :=
            Formatter.logicalOperatorNewline (Formatter.cfg st);
          Formatter.expressionWidth := width;
          Formatter.denseOperators := Formatter.denseOperators (Formatter.cfg st);
          Formatter.newlineBeforeSemicolon :=
            Formatter.newlineBeforeSemicolon (Formatter.cfg st) |};
     Formatter.tokens := Formatter.tokens st;
     Formatter.index := Formatter.index st;
     Formatter.currentNewline := Formatter.currentNewline st;
     Formatter.previousReservedToken := Formatter.previousReservedToken st;
     Formatter.previousCommandToken := Formatter.previousCommandToken st;
     Formatter.inlineBlockActive := Formatter.inlineBlockActive st;
     Formatter.calls := Formatter.calls st |}.

(** What a turn of the loop leaves alone. *)
Definition sameFormatter (st st' : Formatter.State) : Prop :=
  Formatter.cfg st' = Formatter.cfg st
  /\ Formatter.tokens st' = Formatter.tokens st
  /\ Formatter.index st' = Formatter.index st
  /\ Formatter.inlineBlockActive st' = Formatter.inlineBlockActive st.

(** The two remembered tokens: the latest reserved token is the initial
    [EOF_TOKEN] or a token of the statement; the latest command is the
    initial [EOF_TOKEN] or a token of category RESERVED_COMMAND. *)
Definition bookkeeping (imp : Formatter.Imports) (st : Formatter.State) : Prop :=
  (Formatter.previousReservedToken st = Formatter.EOF_TOKEN imp
   \/ In (Formatter.previousReservedToken st) (Formatter.tokens st))
  /\ (Formatter.previousCommandToken st = Formatter.EOF_TOKEN imp
      \/ type (Formatter.previousCommandToken st) = RESERVED_COMMAND).

Module Cases.

(** [varchar (] and [a /* c */ \[] and ['x' .] *)
Definition varchar : Token := Samples.tok RESERVED_DATA_TYPE "varchar".

Definition varcharCall : list Token :=
  [ varchar; Samples.tok OPEN_PAREN "(" ].

Definition indexed : list Token :=
  [ Samples.tok IDENTIFIER "a"; Samples.tok BLOCK_COMMENT "/* c */";
    Samples.tok OPEN_PAREN "[" ].

Definition quoted : list Token :=
  [ Samples.tok STRING "'x'"; Samples.tok PROPERTY_ACCESS_OPERATOR "." ].

(** The group [( b , c )] and what follows it in [f ( b , c ) , d]. *)
Definition openParen : Token := Samples.tok BLOCK_START "(".
Definition closeParen : Token := Samples.tok BLOCK_END ")".

Definition groupBody : list Token :=
  [ Samples.tok IDENTIFIER "b"; Samples.comma; Samples.tok IDENTIFIER "c";
    closeParen ].

Definition afterGroup : list Token :=
  [ Samples.comma; Samples.tok IDENTIFIER "d" ].

Definition plus : Token := Samples.tok OPERATOR "+".

(** [a . Key]: a keyword written [Key], whose [text] the lexer has put in
    upper case. *)
Definition writtenKey : Token :=
  {| type := RESERVED_KEYWORD; raw := "Key"; text := "KEY"; value := "KEY";
     whitespaceBefore := ""; start := 2 |}.

Definition dottedKey : list Token :=
  [ Samples.tok IDENTIFIER "a"; Samples.tok PROPERTY_ACCESS_OPERATOR ".";
    writtenKey ].

End Cases.

(** * Properties *)

(** ** Arrays *)

Lemma TokenType_eqb_eq (a b : TokenType) : TokenType_eqb a b = true <-> a = b.
Proof.
  split.
  - destruct a, b; simpl; congruence.
  - intros ->. destruct b; reflexivity.
Qed.

Lemma tokenAt_of_nat (l : list Token) (i : nat) :
  tokenAt l (Z.of_nat i) = l !! i.
Proof.
  unfold tokenAt. destruct (Z.ltb_spec (Z.of_nat i) 0); [lia|].
  now rewrite Nat2Z.id.
Qed.

Lemma tokenAt_Some_range (l : list Token) (z : Z) (t : Token) :
  tokenAt l z = Some t -> 0 <= z < Z.of_nat (length l).
Proof.
  unfold tokenAt. destruct (Z.ltb_spec z 0) as [Hneg|Hpos]; [discriminate|].
  intros Hlt%lookup_lt_Some. lia.
Qed.

Lemma tokenAt_None_range (l : list Token) (z : Z) :
  tokenAt l z = None <-> z < 0 \/ Z.of_nat (length l) <= z.
Proof.
  unfold tokenAt. destruct (Z.ltb_spec z 0).
  - split; [intros _; lia | reflexivity].
  - rewrite lookup_ge_None. lia.
Qed.

Lemma length_jsMap f (l : list Token) : length (jsMap f l) = length l.
Proof. apply length_imap. Qed.

Lemma lookup_jsMap f (l : list Token) (i : nat) :
  jsMap f l !! i = (fun t => f t (Z.of_nat i) l) <$> l !! i.
Proof. unfold jsMap. now rewrite list_lookup_imap. Qed.

Lemma tokenAt_jsMap f (l : list Token) (z : Z) :
  tokenAt (jsMap f l) z = (fun t => f t z l) <$> tokenAt l z.
Proof.
  unfold tokenAt. destruct (Z.ltb_spec z 0); [reflexivity|].
  rewrite lookup_jsMap. now rewrite Z2Nat.id by lia.
Qed.

(** ** The comment-skipping loop ends *)

Lemma skipComments_enough (l : list Token) (index dir : Z) :
  dir = 1 \/ dir = -1 ->
  forall (fuel : nat) (i : Z),
    turnsLeft l dir (index + i * dir) < Z.of_nat fuel ->
    exists j, Lexer.skipComments fuel l index dir i = Some j.
Proof.
  intros Hdir fuel. induction fuel as [|fuel IH]; intros i Hm.
  - unfold turnsLeft in Hm. repeat case_match; lia.
  - simpl. destruct (tokenAt l (index + i * dir)) as [t|] eqn:Ht; [|eauto].
    destruct (Lexer.isComment t); [|eauto].
    apply IH. apply tokenAt_Some_range in Ht.
    replace (index + (i + 1) * dir) with (index + i * dir + dir) by lia.
    revert Hm. unfold turnsLeft.
    repeat match goal with
           | |- context [Z.ltb ?a ?b] => destruct (Z.ltb_spec a b)
           | |- context [Z.leb ?a ?b] => destruct (Z.leb_spec a b)
           | |- context [Z.eqb ?a ?b] => destruct (Z.eqb_spec a b)
           end; simpl; lia.
Qed.

Lemma skipComments_total (l : list Token) (index dir : Z) :
  dir = 1 \/ dir = -1 ->
  exists j, Lexer.skipComments (S (length l)) l index dir 1 = Some j.
Proof.
  intros Hdir. apply skipComments_enough; [assumption|].
  unfold turnsLeft.
  repeat match goal with
         | |- context [Z.ltb ?a ?b] => destruct (Z.ltb_spec a b)
         | |- context [Z.leb ?a ?b] => destruct (Z.leb_spec a b)
         | |- context [Z.eqb ?a ?b] => destruct (Z.eqb_spec a b)
         end; simpl; lia.
Qed.

(** So the fuel in [nextNonCommentToken] is never used up: the answer is
    the token at the index where the loop stops. *)
Lemma nextNonCommentToken_index (l : list Token) (index dir : Z) :
  dir = 1 \/ dir = -1 ->
  exists j,
    Lexer.skipComments (S (length l)) l index dir 1 = Some j
    /\ Lexer.nextNonCommentToken l index dir = tokenAt l (index + j * dir).
Proof.
  intros Hdir. destruct (skipComments_total l index dir Hdir) as [j Hj].
  exists j. split; [exact Hj|].
  unfold Lexer.nextNonCommentToken. now rewrite Hj.
Qed.

(** When the loop stops, the token it stopped at (if any) is no comment. *)
Lemma skipComments_stops (l : list Token) (index dir : Z) (fuel : nat) :
  forall i j t,
    Lexer.skipComments fuel l index dir i = Some j ->
    tokenAt l (index + j * dir) = Some t ->
    Lexer.isComment t = false.
Proof.
  induction fuel as [|fuel IH]; intros i j t; simpl; [discriminate|].
  destruct (tokenAt l (index + i * dir)) as [u|] eqn:Hu.
  - destruct (Lexer.isComment u) eqn:Hc.
    + apply IH.
    + intros [= <-]. congruence.
  - intros [= <-]. congruence.
Qed.

Lemma nextNonCommentToken_not_comment (l : list Token) (index dir : Z) (t : Token) :
  Lexer.nextNonCommentToken l index dir = Some t -> Lexer.isComment t = false.
Proof.
  unfold Lexer.nextNonCommentToken.
  destruct (Lexer.skipComments _ _ _ _ _) as [j|] eqn:Hj; [|discriminate].
  eapply skipComments_stops; eassumption.
Qed.

(** ** What the passes leave alone *)

Lemma keepAnchors_refl l : keepAnchors l l.
Proof. split; [reflexivity|]. intros i t t' H1 H2 _. congruence. Qed.

Lemma keepAnchors_trans l1 l2 l3 :
  keepAnchors l1 l2 -> keepAnchors l2 l3 -> keepAnchors l1 l3.
Proof.
  intros [Hlen12 H12] [Hlen23 H23]. split; [congruence|].
  intros i t1 t3 Ht1 Ht3.
  destruct (l2 !! i) as [t2|] eqn:Ht2.
  - specialize (H12 i t1 t2 Ht1 Ht2). specialize (H23 i t2 t3 Ht2 Ht3).
    unfold keepsAnchor in *. intros Ha.
    destruct (anchor (type t1)) eqn:A1.
    + rewrite H12 in * by reflexivity. rewrite H23; [reflexivity|].
      rewrite A1. reflexivity.
    + simpl in Ha.
      assert (t3 = t2) as -> by (apply H23; rewrite Ha; apply orb_true_r).
      apply H12. rewrite Ha. apply orb_true_r.
  - apply lookup_ge_None in Ht2. apply lookup_lt_Some in Ht1. lia.
Qed.

Lemma keepAnchors_tokenAt l l' z :
  keepAnchors l l' ->
  match tokenAt l z, tokenAt l' z with
  | Some t, Some t' => keepsAnchor t t'
  | None, None => True
  | _, _ => False
  end.
Proof.
  intros [Hlen H]. unfold tokenAt. destruct (Z.ltb_spec z 0); [exact I|].
  destruct (l !! Z.to_nat z) as [t|] eqn:Ht, (l' !! Z.to_nat z) as [t'|] eqn:Ht'.
  - eapply H; eassumption.
  - apply lookup_ge_None in Ht'. apply lookup_lt_Some in Ht. lia.
  - apply lookup_ge_None in Ht. apply lookup_lt_Some in Ht'. lia.
  - exact I.
Qed.

Lemma isComment_anchor t : Lexer.isComment t = true -> anchor (type t) = true.
Proof. unfold Lexer.isComment. destruct (type t); simpl; congruence. Qed.

Lemma keepsAnchor_isComment t t' :
  keepsAnchor t t' -> Lexer.isComment t' = Lexer.isComment t.
Proof.
  intros H. destruct (Lexer.isComment t) eqn:C.
  - pose proof (isComment_anchor t C) as A.
    rewrite H; [assumption|]. now rewrite A.
  - destruct (Lexer.isComment t') eqn:C'; [|reflexivity].
    pose proof (isComment_anchor t' C') as A'.
    rewrite H in C'; [congruence|]. rewrite A'. apply orb_true_r.
Qed.

(** The loop takes the same turns on two streams with the same anchors. *)
Lemma skipComments_keepAnchors l l' index dir :
  keepAnchors l l' ->
  forall fuel i,
    Lexer.skipComments fuel l' index dir i = Lexer.skipComments fuel l index dir i.
Proof.
  intros K fuel. induction fuel as [|fuel IH]; intros i; simpl; [reflexivity|].
  pose proof (keepAnchors_tokenAt l l' (index + i * dir) K) as H.
  destruct (tokenAt l _) as [t|], (tokenAt l' _) as [t'|]; try easy.
  rewrite (keepsAnchor_isComment _ _ H), IH. reflexivity.
Qed.

Lemma nextNonCommentToken_keepAnchors l l' index dir :
  keepAnchors l l' ->
  match Lexer.nextNonCommentToken l index dir,
        Lexer.nextNonCommentToken l' index dir with
  | Some n, Some n' => keepsAnchor n n'
  | None, None => True
  | _, _ => False
  end.
Proof.
  intros K. unfold Lexer.nextNonCommentToken.
  rewrite (skipComments_keepAnchors l l' index dir K).
  destruct K as [Hlen K']. rewrite <- Hlen.
  destruct (Lexer.skipComments _ l index dir 1) as [j|]; [|exact I].
  apply keepAnchors_tokenAt. split; assumption.
Qed.

(** A test on a neighbour that only anchors pass gives the same answer on
    both streams. *)
Lemma neighbour_test_keepAnchors (p : Token -> bool) l l' index dir :
  (forall t, p t = true -> anchor (type t) = true) ->
  keepAnchors l l' ->
  match Lexer.nextNonCommentToken l' index dir with
  | Some n => p n | None => false end
  = match Lexer.nextNonCommentToken l index dir with
    | Some n => p n | None => false end.
Proof.
  intros Hp K.
  pose proof (nextNonCommentToken_keepAnchors l l' index dir K) as H.
  destruct (Lexer.nextNonCommentToken l index dir) as [n|],
           (Lexer.nextNonCommentToken l' index dir) as [n'|]; try easy.
  unfold keepsAnchor in H.
  destruct (p n) eqn:Pn.
  - rewrite H; [assumption|]. rewrite (Hp n Pn). reflexivity.
  - destruct (p n') eqn:Pn'; [|reflexivity].
    rewrite H in Pn'; [congruence|]. rewrite (Hp n' Pn'). apply orb_true_r.
Qed.

Lemma isOpenParen_anchor t : Lexer.isOpenParen t = true -> anchor (type t) = true.
Proof.
  unfold Lexer.isOpenParen. intros [H _]%andb_true_iff.
  apply TokenType_eqb_eq in H. now rewrite H.
Qed.

Lemma propertyAccess_anchor t :
  TokenType_eqb (type t) PROPERTY_ACCESS_OPERATOR = true -> anchor (type t) = true.
Proof. intros H. apply TokenType_eqb_eq in H. now rewrite H. Qed.

Lemma isPropertyAccess_keepAnchors l l' index dir :
  keepAnchors l l' ->
  Lexer.isPropertyAccess (Lexer.nextNonCommentToken l' index dir)
  = Lexer.isPropertyAccess (Lexer.nextNonCommentToken l index dir).
Proof.
  intros K. unfold Lexer.isPropertyAccess.
  apply (neighbour_test_keepAnchors
           (fun t => TokenType_eqb (type t) PROPERTY_ACCESS_OPERATOR));
    [apply propertyAccess_anchor | assumption].
Qed.

(** ** The single passes *)

Ltac pass_cases :=
  intros t i l;
  unfold Lexer.propertyNameKeywordToIdent, Lexer.funcNameToIdent,
    Lexer.dataTypeToParameterizedDataType, Lexer.identToArrayIdent,
    Lexer.dataTypeToArrayKeyword;
  repeat match goal with
         | |- context [TokenType_eqb ?a ?b] =>
             let E := fresh "E" in
             destruct (TokenType_eqb a b) eqn:E;
             [apply TokenType_eqb_eq in E|]
         | |- context [match ?x with _ => _ end] =>
             let E := fresh "E" in destruct x eqn:E
         end.

Lemma isPass_propertyNameKeywordToIdent : isPass Lexer.propertyNameKeywordToIdent.
Proof. pass_cases; try constructor; assumption. Qed.

Lemma isPass_funcNameToIdent : isPass Lexer.funcNameToIdent.
Proof. pass_cases; try (constructor; rewrite ?E; reflexivity). Qed.

Lemma isPass_dataTypeToParameterizedDataType :
  isPass Lexer.dataTypeToParameterizedDataType.
Proof. pass_cases; try (constructor; assumption). Qed.

Lemma isPass_identToArrayIdent : isPass Lexer.identToArrayIdent.
Proof. pass_cases; try (constructor; assumption). Qed.

Lemma isPass_dataTypeToArrayKeyword : isPass Lexer.dataTypeToArrayKeyword.
Proof. pass_cases; try (constructor; assumption). Qed.

Lemma rewritten_keepsAnchor t t' : rewritten t t' -> keepsAnchor t t'.
Proof.
  intros [ | H | H | H | H ]; unfold keepsAnchor; simpl; try reflexivity.
  all: destruct (type t); simpl in *; congruence.
Qed.

Lemma rewritten_reserved t t' :
  rewritten t t' ->
  Lexer.isReserved (type t') = true -> Lexer.isReserved (type t) = true.
Proof.
  intros [ | H | H | H | H ]; simpl; try congruence.
  all: rewrite H; reflexivity.
Qed.

Lemma rewritten_sameSource t t' : rewritten t t' -> sameSource t t'.
Proof. intros []; repeat split. Qed.

Lemma isPass_keepAnchors f l : isPass f -> keepAnchors l (jsMap f l).
Proof.
  intros Hf. split; [now rewrite length_jsMap|].
  intros i t t' Ht. rewrite lookup_jsMap, Ht. intros [= <-].
  apply rewritten_keepsAnchor, Hf.
Qed.

Lemma rewritten_keeps_function_name t t' :
  rewritten t t' -> type t' = RESERVED_FUNCTION_NAME -> t' = t.
Proof. intros [ | H | H | H | H ]; simpl; congruence. Qed.

Lemma framed_refl t : framed t t.
Proof. repeat split; auto. Qed.

Lemma framed_step t u t' : framed t u -> rewritten u t' -> framed t t'.
Proof.
  intros (S & T & R) [ | H | H | H | H ].
  - repeat split; try apply S; assumption.
  - split; [|split].
    + destruct S as (S1 & S2 & S3 & S4). repeat split; simpl; assumption.
    + right. simpl. destruct S as (S1 & _). auto.
    + simpl. discriminate.
  - split; [|split].
    + destruct S as (S1 & S2 & S3 & S4). repeat split; simpl; assumption.
    + simpl. destruct T as [T | (_ & _ & [T | T])]; [left; assumption | congruence ..].
    + intros _. apply R. rewrite H. reflexivity.
  - split; [|split].
    + destruct S as (S1 & S2 & S3 & S4). repeat split; simpl; assumption.
    + simpl. destruct T as [T | (T1 & T2 & _)]; [left; assumption | right; auto].
    + simpl. discriminate.
  - split; [|split].
    + destruct S as (S1 & S2 & S3 & S4). repeat split; simpl; assumption.
    + simpl. destruct T as [T | (_ & _ & [T | T])]; [left; assumption | congruence ..].
    + simpl. discriminate.
Qed.

(** ** The five passes together *)

Section Disambiguate.

Variable tokens : list Token.

Let s1 := jsMap Lexer.propertyNameKeywordToIdent tokens.
Let s2 := jsMap Lexer.funcNameToIdent s1.
Let s3 := jsMap Lexer.dataTypeToParameterizedDataType s2.
Let s4 := jsMap Lexer.identToArrayIdent s3.
Let s5 := jsMap Lexer.dataTypeToArrayKeyword s4.

Lemma disambiguateTokens_unfold : Lexer.disambiguateTokens tokens = s5.
Proof. reflexivity. Qed.

Lemma keepAnchors_s1 : keepAnchors tokens s1.
Proof. apply isPass_keepAnchors, isPass_propertyNameKeywordToIdent. Qed.

Lemma keepAnchors_s1_s5 : keepAnchors s1 s5.
Proof.
  eapply keepAnchors_trans; [apply isPass_keepAnchors, isPass_funcNameToIdent|].
  eapply keepAnchors_trans;
    [apply isPass_keepAnchors, isPass_dataTypeToParameterizedDataType|].
  eapply keepAnchors_trans; [apply isPass_keepAnchors, isPass_identToArrayIdent|].
  apply isPass_keepAnchors, isPass_dataTypeToArrayKeyword.
Qed.

Lemma keepAnchors_s5 : keepAnchors tokens s5.
Proof. eapply keepAnchors_trans; [apply keepAnchors_s1 | apply keepAnchors_s1_s5]. Qed.

(** Every token of the result comes from the token of the same index by
    the five rewrites in turn. *)
Lemma lookup_s5 (i : nat) (t5 : Token) :
  s5 !! i = Some t5 ->
  exists t t1 t2 t3 t4,
    tokens !! i = Some t /\ s1 !! i = Some t1 /\ s2 !! i = Some t2 /\
    s3 !! i = Some t3 /\ s4 !! i = Some t4 /\
    t1 = Lexer.propertyNameKeywordToIdent t (Z.of_nat i) tokens /\
    t2 = Lexer.funcNameToIdent t1 (Z.of_nat i) s1 /\
    t3 = Lexer.dataTypeToParameterizedDataType t2 (Z.of_nat i) s2 /\
    t4 = Lexer.identToArrayIdent t3 (Z.of_nat i) s3 /\
    t5 = Lexer.dataTypeToArrayKeyword t4 (Z.of_nat i) s4.
Proof.
  intros H5.
  unfold s5 in H5. rewrite lookup_jsMap in H5.
  destruct (s4 !! i) as [t4|] eqn:H4; [|discriminate].
  pose proof H4 as H4'. unfold s4 in H4'. rewrite lookup_jsMap in H4'.
  destruct (s3 !! i) as [t3|] eqn:H3; [|discriminate].
  pose proof H3 as H3'. unfold s3 in H3'. rewrite lookup_jsMap in H3'.
  destruct (s2 !! i) as [t2|] eqn:H2; [|discriminate].
  pose proof H2 as H2'. unfold s2 in H2'. rewrite lookup_jsMap in H2'.
  destruct (s1 !! i) as [t1|] eqn:H1; [|discriminate].
  pose proof H1 as H1'. unfold s1 in H1'. rewrite lookup_jsMap in H1'.
  destruct (tokens !! i) as [t|] eqn:H0; [|discriminate].
  simpl in *.
  exists t, t1, t2, t3, t4. repeat split; congruence.
Qed.

Lemma lookup_s5_total (i : nat) (t : Token) :
  tokens !! i = Some t -> exists t5, s5 !! i = Some t5.
Proof.
  intros H. apply lookup_lt_is_Some.
  unfold s5, s4, s3, s2, s1. rewrite !length_jsMap.
  eapply lookup_lt_Some; eassumption.
Qed.

(** An identifier that leaves the second pass ends as itself or, before an
    opening square bracket, as an array identifier. *)
Lemma identifier_after_s2 (i : nat) (u : Token) :
  s2 !! i = Some u -> type u = IDENTIFIER ->
  s5 !! i = Some u \/ s5 !! i = Some (Lexer.withType ARRAY_IDENTIFIER u).
Proof.
  intros H2 Hu.
  assert (s3 !! i = Some u) as H3.
  { unfold s3. rewrite lookup_jsMap, H2. simpl.
    unfold Lexer.dataTypeToParameterizedDataType. rewrite Hu. reflexivity. }
  assert (s4 !! i = Some u \/ s4 !! i = Some (Lexer.withType ARRAY_IDENTIFIER u)) as H4.
  { unfold s4. rewrite lookup_jsMap, H3. simpl.
    unfold Lexer.identToArrayIdent. rewrite Hu. simpl.
    destruct (Lexer.nextNonCommentToken s3 (Z.of_nat i) 1) as [n|]; [|auto].
    destruct (Lexer.isOpenBracket n); auto. }
  unfold s5. rewrite lookup_jsMap.
  destruct H4 as [H4 | H4]; rewrite H4; simpl;
    unfold Lexer.dataTypeToArrayKeyword; simpl; rewrite ?Hu; auto.
Qed.

(** A function name in the result was a function name after the second
    pass, untouched since. *)
Lemma function_name_since_s2 (i : nat) (t5 : Token) :
  s5 !! i = Some t5 -> type t5 = RESERVED_FUNCTION_NAME -> s2 !! i = Some t5.
Proof.
  intros H5 Hty.
  destruct (lookup_s5 i t5 H5)
    as (t & t1 & t2 & t3 & t4 & _ & _ & H2 & _ & _ & _ & _ & E3 & E4 & E5).
  assert (t5 = t4) as E54.
  { apply rewritten_keeps_function_name; [|assumption].
    rewrite E5. apply isPass_dataTypeToArrayKeyword. }
  assert (t4 = t3) as E43.
  { apply rewritten_keeps_function_name; [|congruence].
    rewrite E4. apply isPass_identToArrayIdent. }
  assert (t3 = t2) as E32.
  { apply rewritten_keeps_function_name; [|congruence].
    rewrite E3. apply isPass_dataTypeToParameterizedDataType. }
  congruence.
Qed.

(** A reserved token in the result was reserved after the first pass. *)
Lemma reserved_since_s1 (i : nat) (t5 : Token) :
  s5 !! i = Some t5 -> Lexer.isReserved (type t5) = true ->
  exists t1, s1 !! i = Some t1 /\ Lexer.isReserved (type t1) = true.
Proof.
  intros H5 R5.
  destruct (lookup_s5 i t5 H5)
    as (t & t1 & t2 & t3 & t4 & _ & H1 & _ & _ & _ & _ & E2 & E3 & E4 & E5).
  exists t1. split; [assumption|].
  apply (rewritten_reserved t1 t2); [rewrite E2; apply isPass_funcNameToIdent|].
  apply (rewritten_reserved t2 t3);
    [rewrite E3; apply isPass_dataTypeToParameterizedDataType|].
  apply (rewritten_reserved t3 t4); [rewrite E4; apply isPass_identToArrayIdent|].
  apply (rewritten_reserved t4 t5); [rewrite E5; apply isPass_dataTypeToArrayKeyword|].
  assumption.
Qed.

Lemma framed_s5 (i : nat) (t t5 : Token) :
  tokens !! i = Some t -> s5 !! i = Some t5 -> framed t t5.
Proof.
  intros H0 H5.
  destruct (lookup_s5 i t5 H5)
    as (t' & t1 & t2 & t3 & t4 & H0' & _ & _ & _ & _ & E1 & E2 & E3 & E4 & E5).
  assert (t' = t) as -> by congruence.
  eapply framed_step; [|rewrite E5; apply isPass_dataTypeToArrayKeyword].
  eapply framed_step; [|rewrite E4; apply isPass_identToArrayIdent].
  eapply framed_step; [|rewrite E3; apply isPass_dataTypeToParameterizedDataType].
  eapply framed_step; [|rewrite E2; apply isPass_funcNameToIdent].
  eapply framed_step; [|rewrite E1; apply isPass_propertyNameKeywordToIdent].
  apply framed_refl.
Qed.

End Disambiguate.

(** ** The stream after disambiguation *)

(** C4.  In the stream that [disambiguateTokens] returns, the nearest
    non-comment token after every RESERVED_FUNCTION_NAME token is an
    opening parenthesis.  A RESERVED_FUNCTION_NAME token of the input that
    is not so followed is an IDENTIFIER (with its raw text) once the second
    pass has run; the later passes leave it so, or make it an
    ARRAY_IDENTIFIER when an opening square bracket follows. *)
Theorem function_name_followed_by_open_paren (tokens : list Token) :
  (forall (i : nat) (t' : Token),
     Lexer.disambiguateTokens tokens !! i = Some t' ->
     type t' = RESERVED_FUNCTION_NAME ->
     exists n,
       Lexer.nextNonCommentToken (Lexer.disambiguateTokens tokens) (Z.of_nat i) 1
       = Some n /\ Lexer.isOpenParen n = true)
  /\
  (forall (i : nat) (t : Token),
     tokens !! i = Some t ->
     type t = RESERVED_FUNCTION_NAME ->
     (forall n, Lexer.nextNonCommentToken tokens (Z.of_nat i) 1 = Some n ->
                Lexer.isOpenParen n = false) ->
     jsMap Lexer.funcNameToIdent
       (jsMap Lexer.propertyNameKeywordToIdent tokens) !! i
     = Some (Lexer.toIdent t)
     /\ (Lexer.disambiguateTokens tokens !! i = Some (Lexer.toIdent t)
         \/ Lexer.disambiguateTokens tokens !! i
            = Some (Lexer.withType ARRAY_IDENTIFIER (Lexer.toIdent t)))).
Proof.
  split.
  - intros i t5 H5 Hty.
    pose proof (function_name_since_s2 tokens i t5 H5 Hty) as H2.
    rewrite lookup_jsMap in H2.
    destruct (jsMap Lexer.propertyNameKeywordToIdent tokens !! i) as [t1|];
      [|discriminate].
    simpl in H2. injection H2 as E2.
    assert (match Lexer.nextNonCommentToken
                    (jsMap Lexer.propertyNameKeywordToIdent tokens) (Z.of_nat i) 1
            with Some n => Lexer.isOpenParen n | None => false end = true) as P.
    { revert E2. unfold Lexer.funcNameToIdent.
      destruct (TokenType_eqb (type t1) RESERVED_FUNCTION_NAME) eqn:F.
      - destruct (Lexer.nextNonCommentToken _ _ _) as [n|].
        + destruct (Lexer.isOpenParen n); [reflexivity|].
          simpl. intros <-. discriminate.
        + intros <-. discriminate.
      - intros ->. rewrite Hty in F. discriminate. }
    pose proof (neighbour_test_keepAnchors Lexer.isOpenParen _ _ (Z.of_nat i) 1
                  isOpenParen_anchor (keepAnchors_s1_s5 tokens)) as N.
    change (jsMap Lexer.dataTypeToArrayKeyword _)
      with (Lexer.disambiguateTokens tokens) in N.
    rewrite <- N in P.
    destruct (Lexer.nextNonCommentToken (Lexer.disambiguateTokens tokens) _ _)
      as [n|]; [|discriminate].
    exists n. split; [reflexivity | assumption].
  - intros i t H0 Hty Hno.
    assert (jsMap Lexer.funcNameToIdent
              (jsMap Lexer.propertyNameKeywordToIdent tokens) !! i
            = Some (Lexer.toIdent t)) as H2.
    { rewrite !lookup_jsMap, H0. simpl. f_equal.
      pose proof (neighbour_test_keepAnchors Lexer.isOpenParen _ _ (Z.of_nat i) 1
                    isOpenParen_anchor (keepAnchors_s1 tokens)) as N.
      assert (Lexer.funcNameToIdent t (Z.of_nat i)
                (jsMap Lexer.propertyNameKeywordToIdent tokens)
              = Lexer.toIdent t) as F.
      { unfold Lexer.funcNameToIdent. rewrite Hty. simpl.
        destruct (Lexer.nextNonCommentToken
                    (jsMap Lexer.propertyNameKeywordToIdent tokens) _ _) as [n|];
          [|reflexivity].
        destruct (Lexer.nextNonCommentToken tokens (Z.of_nat i) 1) as [m|] eqn:M.
        - rewrite (Hno m eq_refl) in N. rewrite N. reflexivity.
        - rewrite N. reflexivity. }
      unfold Lexer.propertyNameKeywordToIdent. rewrite Hty. simpl.
      destruct (Lexer.isPropertyAccess _); [reflexivity|].
      destruct (Lexer.isPropertyAccess _); [reflexivity|].
      exact F. }
    split; [exact H2|].
    apply identifier_after_s2; [exact H2 | reflexivity].
Qed.

Lemma function_name_followed_by_open_paren_witness :
  (exists n,
     Lexer.nextNonCommentToken (Lexer.disambiguateTokens Samples.countCall) 0 1
     = Some n /\ Lexer.isOpenParen n = true)
  /\ Lexer.disambiguateTokens Samples.countIndexed !! 0%nat
     = Some (Lexer.withType ARRAY_IDENTIFIER
               (Lexer.toIdent (Samples.tok RESERVED_FUNCTION_NAME "count"))).
Proof.
  split.
  - apply (proj1 (function_name_followed_by_open_paren Samples.countCall)
             0%nat (Samples.tok RESERVED_FUNCTION_NAME "count")); reflexivity.
  - destruct (proj2 (function_name_followed_by_open_paren Samples.countIndexed)
                0%nat (Samples.tok RESERVED_FUNCTION_NAME "count")
                eq_refl eq_refl) as [_ [H | H]].
    + intros n. vm_compute. intros [= <-]. reflexivity.
    + vm_compute in H. discriminate.
    + exact H.
Defined.

(** C5.  In the stream that [disambiguateTokens] returns, no reserved
    token has a PROPERTY_ACCESS_OPERATOR as its nearest non-comment
    neighbour, before or after.  A reserved token of the input with such a
    neighbour is an IDENTIFIER with its raw text once the first pass has
    run; the later passes leave it so, or make it an ARRAY_IDENTIFIER when
    an opening square bracket follows.  After the first pass and in the
    result alike, the [text] of the token is the [raw] of the input token,
    and its [raw], [value], [whitespaceBefore] and [start] are kept. *)
Theorem reserved_not_next_to_property_access (tokens : list Token) :
  (forall (i : nat) (t' : Token),
     Lexer.disambiguateTokens tokens !! i = Some t' ->
     Lexer.isReserved (type t') = true ->
     Lexer.isPropertyAccess
       (Lexer.prevNonCommentToken (Lexer.disambiguateTokens tokens) (Z.of_nat i))
     = false
     /\ Lexer.isPropertyAccess
          (Lexer.nextNonCommentToken (Lexer.disambiguateTokens tokens) (Z.of_nat i) 1)
        = false)
  /\
  (forall (i : nat) (t : Token),
     tokens !! i = Some t ->
     Lexer.isReserved (type t) = true ->
     Lexer.isPropertyAccess (Lexer.prevNonCommentToken tokens (Z.of_nat i))
     || Lexer.isPropertyAccess (Lexer.nextNonCommentToken tokens (Z.of_nat i) 1)
     = true ->
     jsMap Lexer.propertyNameKeywordToIdent tokens !! i = Some (Lexer.toIdent t)
     /\ (Lexer.disambiguateTokens tokens !! i = Some (Lexer.toIdent t)
         \/ Lexer.disambiguateTokens tokens !! i
            = Some (Lexer.withType ARRAY_IDENTIFIER (Lexer.toIdent t)))
     /\ (exists t1,
           jsMap Lexer.propertyNameKeywordToIdent tokens !! i = Some t1
           /\ type t1 = IDENTIFIER
           /\ text t1 = raw t
           /\ raw t1 = raw t
           /\ value t1 = value t
           /\ whitespaceBefore t1 = whitespaceBefore t
           /\ start t1 = start t)
     /\ (exists t',
           Lexer.disambiguateTokens tokens !! i = Some t'
           /\ (type t' = IDENTIFIER \/ type t' = ARRAY_IDENTIFIER)
           /\ text t' = raw t
           /\ raw t' = raw t
           /\ value t' = value t
           /\ whitespaceBefore t' = whitespaceBefore t
           /\ start t' = start t)).
Proof.
  split.
  - intros i t5 H5 R5.
    destruct (reserved_since_s1 tokens i t5 H5 R5) as (t1 & H1 & R1).
    rewrite lookup_jsMap in H1.
    destruct (tokens !! i) as [t|]; [|discriminate].
    simpl in H1. injection H1 as E1.
    unfold Lexer.prevNonCommentToken.
    rewrite !(isPropertyAccess_keepAnchors tokens (Lexer.disambiguateTokens tokens))
      by apply keepAnchors_s5.
    revert E1. unfold Lexer.propertyNameKeywordToIdent, Lexer.prevNonCommentToken.
    destruct (Lexer.isReserved (type t)) eqn:R.
    + destruct (Lexer.isPropertyAccess (Lexer.nextNonCommentToken tokens _ (-1))).
      * intros <-. discriminate.
      * destruct (Lexer.isPropertyAccess (Lexer.nextNonCommentToken tokens _ 1)).
        -- intros <-. discriminate.
        -- auto.
    + intros <-. congruence.
  - intros i t H0 R Hdot.
    assert (jsMap Lexer.propertyNameKeywordToIdent tokens !! i
            = Some (Lexer.toIdent t)) as H1.
    { rewrite lookup_jsMap, H0. simpl. f_equal.
      unfold Lexer.propertyNameKeywordToIdent. rewrite R.
      destruct (Lexer.isPropertyAccess (Lexer.prevNonCommentToken tokens _));
        [reflexivity|].
      simpl in Hdot. rewrite Hdot. reflexivity. }
    assert (Lexer.disambiguateTokens tokens !! i = Some (Lexer.toIdent t)
            \/ Lexer.disambiguateTokens tokens !! i
               = Some (Lexer.withType ARRAY_IDENTIFIER (Lexer.toIdent t))) as F.
    { apply identifier_after_s2; [|reflexivity].
      rewrite lookup_jsMap, H1. reflexivity. }
    split; [exact H1|]. split; [exact F|]. split.
    + exists (Lexer.toIdent t). split; [exact H1|]. simpl. repeat split.
    + destruct F as [F|F].
      * exists (Lexer.toIdent t). split; [exact F|].
        split; [left; reflexivity|]. simpl. repeat split.
      * exists (Lexer.withType ARRAY_IDENTIFIER (Lexer.toIdent t)).
        split; [exact F|]. split; [right; reflexivity|]. simpl. repeat split.
Qed.

Lemma reserved_not_next_to_property_access_witness :
  (Lexer.isPropertyAccess
     (Lexer.prevNonCommentToken (Lexer.disambiguateTokens Samples.selectFrom) 2)
   = false
   /\ Lexer.isPropertyAccess
        (Lexer.nextNonCommentToken (Lexer.disambiguateTokens Samples.selectFrom) 2 1)
      = false)
  /\ Lexer.disambiguateTokens Samples.dottedSelect !! 3%nat
     = Some (Lexer.withType ARRAY_IDENTIFIER
               (Lexer.toIdent (Samples.tok RESERVED_COMMAND "select")))
  /\ text Cases.writtenKey = "KEY"
  /\ (exists t1,
        jsMap Lexer.propertyNameKeywordToIdent Cases.dottedKey !! 2%nat = Some t1
        /\ type t1 = IDENTIFIER
        /\ text t1 = "Key")
  /\ (exists t',
        Lexer.disambiguateTokens Cases.dottedKey !! 2%nat = Some t'
        /\ (type t' = IDENTIFIER \/ type t' = ARRAY_IDENTIFIER)
        /\ text t' = "Key"
        /\ raw t' = "Key"
        /\ value t' = "KEY").
Proof.
  split; [|split; [|split; [reflexivity|]]].
  - apply (proj1 (reserved_not_next_to_property_access Samples.selectFrom)
             2%nat (Samples.tok RESERVED_COMMAND "from")); reflexivity.
  - destruct (proj2 (reserved_not_next_to_property_access Samples.dottedSelect)
                3%nat (Samples.tok RESERVED_COMMAND "select")
                eq_refl eq_refl eq_refl) as (_ & [H | H] & _).
    + vm_compute in H. discriminate.
    + exact H.
  - destruct (proj2 (reserved_not_next_to_property_access Cases.dottedKey)
                2%nat Cases.writtenKey eq_refl eq_refl eq_refl)
      as (_ & _ & (t1 & H1 & T1 & X1 & _) & (t' & H & T & X & R & V & _)).
    split.
    + exists t1. repeat split; assumption.
    + exists t'. repeat split; assumption.
Defined.

(** C9.  [disambiguateTokens] returns as many tokens as it is given, and
    the token at each index keeps the [value], [whitespaceBefore], [raw]
    and [start] of the input token at that index.  Its [text] is kept too,
    unless the token was reserved and has become an identifier, whose
    [text] is the [raw] of the input token.  A comment token is returned
    as it is. *)
Theorem disambiguateTokens_frame (tokens : list Token) :
  length (Lexer.disambiguateTokens tokens) = length tokens
  /\
  forall (i : nat) (t : Token),
    tokens !! i = Some t ->
    exists t',
      Lexer.disambiguateTokens tokens !! i = Some t'
      /\ value t' = value t
      /\ whitespaceBefore t' = whitespaceBefore t
      /\ raw t' = raw t
      /\ start t' = start t
      /\ (text t' = text t
          \/ (Lexer.isReserved (type t) = true /\ text t' = raw t
              /\ (type t' = IDENTIFIER \/ type t' = ARRAY_IDENTIFIER)))
      /\ (Lexer.isComment t = true -> t' = t).
Proof.
  split.
  - unfold Lexer.disambiguateTokens. now rewrite !length_jsMap.
  - intros i t H0.
    destruct (lookup_s5_total tokens i t H0) as [t5 H5].
    exists t5. split; [exact H5|].
    destruct (framed_s5 tokens i t t5 H0 H5) as ((S1 & S2 & S3 & S4) & T & _).
    repeat split; try assumption.
    intros C. destruct (keepAnchors_s5 tokens) as [_ K].
    apply (K i t t5 H0 H5). rewrite (isComment_anchor t C). reflexivity.
Qed.

Lemma disambiguateTokens_frame_witness :
  exists t',
    Lexer.disambiguateTokens Samples.dottedSelect !! 3%nat = Some t'
    /\ value t' = "select"
    /\ whitespaceBefore t' = ""
    /\ raw t' = "select"
    /\ start t' = 0
    /\ (text t' = "select"
        \/ (Lexer.isReserved RESERVED_COMMAND = true /\ text t' = "select"
            /\ (type t' = IDENTIFIER \/ type t' = ARRAY_IDENTIFIER)))
    /\ (Lexer.isComment (Samples.tok RESERVED_COMMAND "select") = true ->
        t' = Samples.tok RESERVED_COMMAND "select").
Proof.
  apply (proj2 (disambiguateTokens_frame Samples.dottedSelect) 3%nat
           (Samples.tok RESERVED_COMMAND "select")).
  reflexivity.
Defined.

(** ** Slices of the statement *)

Lemma slice_from_index (l : list Token) (k : Z) :
  0 <= k -> Formatter.slice l k None = drop (Z.to_nat k) l.
Proof.
  intros Hk. unfold Formatter.slice.
  destruct (Z.ltb_spec k 0); [lia|].
  destruct (Z.le_gt_cases k (Z.of_nat (length l))).
  - rewrite Z.min_l by lia. apply take_ge. rewrite length_drop. lia.
  - rewrite Z.min_r by lia. rewrite Nat2Z.id, Z.sub_diag. simpl.
    rewrite !drop_ge by lia. reflexivity.
Qed.

Lemma slice_to_index (l : list Token) (k : Z) :
  0 <= k <= Z.of_nat (length l) ->
  Formatter.slice l 0 (Some k) = take (Z.to_nat k) l.
Proof.
  intros Hk. unfold Formatter.slice.
  destruct (Z.ltb_spec k 0); [lia|]. simpl.
  rewrite (Z.min_l 0) by lia. rewrite (Z.min_l k) by lia.
  simpl. now rewrite Z.sub_0_r.
Qed.

(** [slice(0, -1)] is the array without its last element. *)
Lemma slice_to_minus_one (l : list Token) :
  Formatter.slice l 0 (Some (-1)) = removelast l.
Proof.
  unfold Formatter.slice. simpl.
  rewrite (Z.min_l 0) by lia. simpl. rewrite Z.sub_0_r.
  destruct l as [|t l] using rev_ind; [reflexivity|].
  rewrite removelast_last, length_app. simpl.
  replace (Z.to_nat (Z.max (Z.of_nat (length l + 1) + -1) 0)) with (length l) by lia.
  change (Z.to_nat 0) with 0%nat. rewrite drop_0.
  now rewrite take_app_length.
Qed.

Lemma findIndexFrom_found (p : Token -> bool) (l : list Token) (i : Z) :
  existsb p l = true ->
  Formatter.findIndexFrom p l i = i + Z.of_nat (length (Formatter.upTo p l)).
Proof.
  revert i. induction l as [|t l IH]; intros i; simpl; [discriminate|].
  destruct (p t); simpl; [lia|].
  intros H. rewrite IH by assumption. lia.
Qed.

Lemma findIndexFrom_none (p : Token -> bool) (l : list Token) (i : Z) :
  existsb p l = false ->
  Formatter.findIndexFrom p l i = -1 /\ Formatter.upTo p l = l.
Proof.
  revert i. induction l as [|t l IH]; intros i; simpl; [auto|].
  destruct (p t); simpl; [discriminate|].
  intros H. destruct (IH (i + 1) H) as [-> ->]. auto.
Qed.

Lemma upTo_prefix (p : Token -> bool) (l : list Token) :
  Formatter.upTo p l = take (length (Formatter.upTo p l)) l
  /\ (length (Formatter.upTo p l) <= length l)%nat.
Proof.
  induction l as [|t l [IH1 IH2]]; simpl; [auto|].
  destruct (p t); simpl; [split; [reflexivity | lia]|].
  split; [now rewrite <- IH1 | lia].
Qed.

Section FormatterFacts.

Variable imp : Formatter.Imports.

Let stop (token : Token) : bool :=
  Formatter.isCommand imp token || (value token =? ";")%string.

(** The method and its documentation agree when a reserved command or a
    semicolon follows, and when nothing follows at all. *)
Lemma tokensUntilNextCommandOrQueryEnd_found (st : Formatter.State) :
  0 <= Formatter.index st ->
  existsb stop (drop (Z.to_nat (Formatter.index st + 1)) (Formatter.tokens st)) = true ->
  Formatter.tokensUntilNextCommandOrQueryEnd imp st
  = Formatter.documentedTokensUntilNextCommandOrQueryEnd imp st.
Proof.
  intros Hi Hex.
  unfold Formatter.tokensUntilNextCommandOrQueryEnd,
    Formatter.documentedTokensUntilNextCommandOrQueryEnd.
  rewrite slice_from_index by lia.
  set (tail := drop _ _) in *. fold stop.
  destruct (Nat.eqb_spec (length tail) 0) as [E|E].
  - destruct tail; [discriminate | discriminate].
  - unfold Formatter.findIndex. rewrite findIndexFrom_found by assumption.
    destruct (upTo_prefix stop tail) as [P1 P2].
    rewrite slice_to_index by lia.
    rewrite Z.add_0_l, Nat2Z.id. now rewrite <- P1.
Qed.

Lemma tokensUntilNextCommandOrQueryEnd_nothing_left (st : Formatter.State) :
  0 <= Formatter.index st ->
  drop (Z.to_nat (Formatter.index st + 1)) (Formatter.tokens st) = [] ->
  Formatter.tokensUntilNextCommandOrQueryEnd imp st = []
  /\ Formatter.documentedTokensUntilNextCommandOrQueryEnd imp st = [].
Proof.
  intros Hi Hnil.
  unfold Formatter.tokensUntilNextCommandOrQueryEnd,
    Formatter.documentedTokensUntilNextCommandOrQueryEnd.
  rewrite slice_from_index by lia. rewrite Hnil. auto.
Qed.

(** When tokens follow but no reserved command and no semicolon does, the
    method leaves the last token of the statement out: [findIndex] answers
    [-1], and [slice(0, -1)] drops one element. *)
Lemma tokensUntilNextCommandOrQueryEnd_not_found (st : Formatter.State) :
  0 <= Formatter.index st ->
  drop (Z.to_nat (Formatter.index st + 1)) (Formatter.tokens st) <> [] ->
  existsb stop (drop (Z.to_nat (Formatter.index st + 1)) (Formatter.tokens st)) = false ->
  Formatter.tokensUntilNextCommandOrQueryEnd imp st
  = removelast (drop (Z.to_nat (Formatter.index st + 1)) (Formatter.tokens st))
  /\ Formatter.documentedTokensUntilNextCommandOrQueryEnd imp st
     = drop (Z.to_nat (Formatter.index st + 1)) (Formatter.tokens st).
Proof.
  intros Hi Hne Hex.
  unfold Formatter.tokensUntilNextCommandOrQueryEnd,
    Formatter.documentedTokensUntilNextCommandOrQueryEnd.
  rewrite slice_from_index by lia.
  set (tail := drop _ _) in *. fold stop.
  destruct (findIndexFrom_none stop tail 0 Hex) as [F U].
  split; [|exact U].
  destruct (Nat.eqb_spec (length tail) 0) as [E|E].
  - destruct tail; [congruence | discriminate].
  - unfold Formatter.findIndex. rewrite F. apply slice_to_minus_one.
Qed.

End FormatterFacts.

(** ** Commas *)




(** ** Multi-line mode of a command *)

Section CheckNewline.

Variable imp : Formatter.Imports.

(** The override: within SELECT, a CASE among the tokens that the method
    collects forces multi-line mode, whatever [multilineLists] says. *)
Lemma checkNewline_select_case (st : Formatter.State) (token : Token) :
  Formatter.isWithinSelect imp st = true ->
  existsb (Formatter.isToken_CASE imp)
    (Formatter.tokensUntilNextCommandOrQueryEnd imp st) = true ->
  Formatter.checkNewline imp st token = true.
Proof.
  intros S C. unfold Formatter.checkNewline. now rewrite S, C.
Qed.

(** The numeric mode, on the tokens that the method collects. *)
Lemma checkNewline_max_clauses (st : Formatter.State) (token : Token) (n : Z) :
  Formatter.multilineLists (Formatter.cfg st) = Formatter.MaxClauses n ->
  Formatter.isWithinSelect imp st
  && existsb (Formatter.isToken_CASE imp)
       (Formatter.tokensUntilNextCommandOrQueryEnd imp st) = false ->
  Formatter.checkNewline imp st token
  = (Formatter.countClauses (Formatter.tokensUntilNextCommandOrQueryEnd imp st) >? n)
    || (Formatter.inlineWidth token (Formatter.tokensUntilNextCommandOrQueryEnd imp st)
        >? Formatter.expressionWidth (Formatter.cfg st)).
Proof.
  intros M O. unfold Formatter.checkNewline. now rewrite O, M.
Qed.

(** The clause count is one more than the number of commas outside every
    block. *)
Lemma countClausesFrom_commas (l : list Token) (count openBlocks : Z) :
  Formatter.countClausesFrom l count openBlocks
  = count + commasAtDepthZero l openBlocks.
Proof.
  revert count openBlocks. induction l as [|t l IH]; intros count openBlocks; simpl.
  - lia.
  - rewrite IH.
    destruct ((value t =? ",")%string && (openBlocks =? 0));
      destruct (TokenType_eqb (type t) BLOCK_START) eqn:S;
      destruct (TokenType_eqb (type t) BLOCK_END) eqn:E;
      try (apply TokenType_eqb_eq in S; apply TokenType_eqb_eq in E; congruence);
      rewrite ?Z.add_0_r, ?Z.sub_0_r; lia.
Qed.

Lemma countClauses_commas (l : list Token) :
  Formatter.countClauses l = 1 + commasAtDepthZero l 0.
Proof. apply countClausesFrom_commas. Qed.

(** Both results in the words of the documentation, for a command that is
    followed, somewhere, by a reserved command or a semicolon. *)
Lemma checkNewline_select_case_documented (st : Formatter.State) (token : Token) :
  0 <= Formatter.index st ->
  existsb (fun t => Formatter.isCommand imp t || (value t =? ";")%string)
    (drop (Z.to_nat (Formatter.index st + 1)) (Formatter.tokens st)) = true ->
  Formatter.isWithinSelect imp st = true ->
  existsb (Formatter.isToken_CASE imp)
    (Formatter.documentedTokensUntilNextCommandOrQueryEnd imp st) = true ->
  Formatter.checkNewline imp st token = true.
Proof.
  intros Hi Hstop S C. apply checkNewline_select_case; [assumption|].
  now rewrite tokensUntilNextCommandOrQueryEnd_found.
Qed.

Lemma checkNewline_max_clauses_documented (st : Formatter.State) (token : Token)
  (n : Z) :
  0 <= Formatter.index st ->
  existsb (fun t => Formatter.isCommand imp t || (value t =? ";")%string)
    (drop (Z.to_nat (Formatter.index st + 1)) (Formatter.tokens st)) = true ->
  Formatter.multilineLists (Formatter.cfg st) = Formatter.MaxClauses n ->
  Formatter.isWithinSelect imp st
  && existsb (Formatter.isToken_CASE imp)
       (Formatter.documentedTokensUntilNextCommandOrQueryEnd imp st) = false ->
  Formatter.checkNewline imp st token
  = (1 + commasAtDepthZero
           (Formatter.documentedTokensUntilNextCommandOrQueryEnd imp st) 0 >? n)
    || (Formatter.inlineWidth token
          (Formatter.documentedTokensUntilNextCommandOrQueryEnd imp st)
        >? Formatter.expressionWidth (Formatter.cfg st)).
Proof.
  intros Hi Hstop M O.
  rewrite <- countClauses_commas.
  rewrite <- tokensUntilNextCommandOrQueryEnd_found in * by assumption.
  now apply checkNewline_max_clauses.
Qed.

(** The command branch of the loop stores the decision. *)
Lemma formatToken_command (st : Formatter.State) (token : Token) :
  tokenAt (Formatter.tokens st) (Formatter.index st) = Some token ->
  type (snd (Formatter.noteReserved imp token st)) = RESERVED_COMMAND ->
  exists st',
    Formatter.formatToken imp st = Some st'
    /\ Formatter.currentNewline st'
       = Formatter.checkNewline imp
           (fst (Formatter.noteReserved imp token st))
           (snd (Formatter.noteReserved imp token st)).
Proof.
  intros H T. unfold Formatter.formatToken. rewrite H.
  destruct (Formatter.noteReserved imp token st) as [st1 token1]. simpl in *.
  rewrite T. eexists. split; [reflexivity|].
  unfold Formatter.formatCommand. simpl.
  repeat match goal with
         | |- context [if ?b then _ else _] => destruct b
         end; reflexivity.
Qed.

End CheckNewline.

(** C3.  On [select case] under [multilineLists: 'avoid'] the command is
    SELECT and a CASE token stands between it and the end of the query,
    but the method collects no token at all (no command and no semicolon
    follows, so the last token is dropped), finds no CASE, and the
    formatter leaves [currentNewline] false. *)
Theorem select_with_last_case_not_multiline :
  let st0 := Samples.starting Formatter.Avoid 50 Samples.selectCase in
  let st := fst (Formatter.noteReserved Samples.imports Samples.SELECT st0) in
  tokenAt (Formatter.tokens st0) (Formatter.index st0) = Some Samples.SELECT
  /\ Formatter.isWithinSelect Samples.imports st = true
  /\ existsb (Formatter.isToken_CASE Samples.imports)
       (Formatter.documentedTokensUntilNextCommandOrQueryEnd Samples.imports st)
     = true
  /\ Formatter.tokensUntilNextCommandOrQueryEnd Samples.imports st = []
  /\ Formatter.checkNewline Samples.imports st Samples.SELECT = false
  /\ Formatter.currentNewline <$> Formatter.formatToken Samples.imports st0
     = Some false.
Proof. repeat split. Qed.

(** With a command after the CASE expression the override fires, also
    under ['avoid']: [select case when a then 1 else 2 end from t]. *)
Example select_case_from_is_multiline :
  Formatter.currentNewline
  <$> Formatter.formatToken Samples.imports
        (Samples.starting Formatter.Avoid 50 Samples.selectCaseFrom)
  = Some true.
Proof. reflexivity. Qed.

(** C7.  On [select a, b] with [multilineLists: 2] and
    [expressionWidth: 10] no CASE is involved, the tokens up to the end of
    the query are [a , b] with two clauses and an inline width of 11, which
    exceeds 10; but the method collects [a ,] only (no command and no
    semicolon follows, so the last token is dropped), measures 10, and the
    formatter leaves [currentNewline] false. *)
Theorem select_list_width_misses_last_token :
  let st0 := Samples.starting (Formatter.MaxClauses 2) 10 Samples.selectAB in
  let st := fst (Formatter.noteReserved Samples.imports Samples.SELECT st0) in
  let documented :=
    Formatter.documentedTokensUntilNextCommandOrQueryEnd Samples.imports st in
  let collected := Formatter.tokensUntilNextCommandOrQueryEnd Samples.imports st in
  existsb (Formatter.isToken_CASE Samples.imports) documented = false
  /\ Formatter.countClauses documented = 2
  /\ Formatter.inlineWidth Samples.SELECT documented = 11
  /\ ((Formatter.countClauses documented >? 2)
      || (Formatter.inlineWidth Samples.SELECT documented >? 10)) = true
  /\ collected = [Samples.tok IDENTIFIER "a"; Samples.comma]
  /\ Formatter.inlineWidth Samples.SELECT collected = 10
  /\ Formatter.checkNewline Samples.imports st Samples.SELECT = false
  /\ Formatter.currentNewline <$> Formatter.formatToken Samples.imports st0
     = Some false.
Proof. repeat split. Qed.

(** ** Logical operators and neighbour lookups *)

(** C6.  An AND whose second predecessor in the statement is BETWEEN is
    written through [addWithSpaces] and nothing else happens: no newline
    before or after it, no change of indentation. *)
Theorem and_after_between_stays_inline (imp : Formatter.Imports)
  (st : Formatter.State) (token between : Token) :
  Formatter.isToken_AND imp token = true ->
  tokenAt (Formatter.tokens st) (Formatter.index st - 2) = Some between ->
  Formatter.isToken_BETWEEN imp between = true ->
  Formatter.formatLogicalOperator imp token st
  = Formatter.call (Formatter.AddWithSpaces (Formatter.show imp st token)) st.
Proof.
  intros A L B. unfold Formatter.formatLogicalOperator, Formatter.tokenLookBehind.
  now rewrite A, L, B.
Qed.

Lemma and_after_between_stays_inline_witness :
  Formatter.formatLogicalOperator Samples.imports
    (Samples.kw RESERVED_LOGICAL_OPERATOR "and" "AND")
    (Formatter.atIndex 4 (Samples.starting Formatter.Always 50 Samples.whereBetween))
  = Formatter.call (Formatter.AddWithSpaces "and")
      (Formatter.atIndex 4 (Samples.starting Formatter.Always 50 Samples.whereBetween)).
Proof.
  apply (and_after_between_stays_inline Samples.imports
           (Formatter.atIndex 4
              (Samples.starting Formatter.Always 50 Samples.whereBetween))
           (Samples.kw RESERVED_LOGICAL_OPERATOR "and" "AND")
           (Samples.kw RESERVED_KEYWORD "between" "BETWEEN"));
    reflexivity.
Defined.

(** The same through the loop: in [where x between 1 and 2] the AND is
    written by one call, also when the command is in multi-line mode. *)
Example and_after_between_in_loop :
  let st := Formatter.atIndex 4
              (Samples.starting Formatter.Always 50 Samples.whereBetween) in
  Formatter.currentNewline st = true
  /\ Formatter.calls <$> Formatter.formatToken Samples.imports st
     = Some [Formatter.AddWithSpaces "and"].
Proof. split; reflexivity. Qed.

(** C10.  [tokenLookBehind] and [tokenLookAhead] answer for every state
    and every positive [n]: the token at [index - n] (at [index + n]) when
    that index lies in the statement, and [EOF_TOKEN] when it does not.
    In particular the look two tokens behind, which the AND-after-BETWEEN
    test makes, gives [EOF_TOKEN] on the first two tokens of a statement. *)
Theorem token_lookups_total (imp : Formatter.Imports) (st : Formatter.State)
  (n : Z) :
  0 < n ->
  (forall t, tokenAt (Formatter.tokens st) (Formatter.index st - n) = Some t ->
             Formatter.tokenLookBehind imp st n = t)
  /\ (Formatter.index st - n < 0
      \/ Z.of_nat (length (Formatter.tokens st)) <= Formatter.index st - n ->
      Formatter.tokenLookBehind imp st n = Formatter.EOF_TOKEN imp)
  /\ (forall t, tokenAt (Formatter.tokens st) (Formatter.index st + n) = Some t ->
                Formatter.tokenLookAhead imp st n = t)
  /\ (Formatter.index st + n < 0
      \/ Z.of_nat (length (Formatter.tokens st)) <= Formatter.index st + n ->
      Formatter.tokenLookAhead imp st n = Formatter.EOF_TOKEN imp)
  /\ (Formatter.index st < 2 ->
      Formatter.tokenLookBehind imp st 2 = Formatter.EOF_TOKEN imp).
Proof.
  intros _. unfold Formatter.tokenLookBehind, Formatter.tokenLookAhead.
  repeat split.
  - intros t ->. reflexivity.
  - intros H%tokenAt_None_range. now rewrite H.
  - intros t ->. reflexivity.
  - intros H%tokenAt_None_range. now rewrite H.
  - intros H. assert (tokenAt (Formatter.tokens st) (Formatter.index st - 2) = None) as ->
        by (apply tokenAt_None_range; lia).
    reflexivity.
Qed.

Lemma token_lookups_total_witness :
  Formatter.tokenLookBehind Samples.imports
    (Samples.starting Formatter.Always 50 Samples.whereBetween) 2
  = Formatter.EOF_TOKEN Samples.imports
  /\ Formatter.tokenLookAhead Samples.imports
       (Samples.starting Formatter.Always 50 Samples.whereBetween) 2
     = Samples.kw RESERVED_KEYWORD "between" "BETWEEN"
  /\ Formatter.tokenLookAhead Samples.imports
       (Formatter.atIndex 4
          (Samples.starting Formatter.Always 50 Samples.whereBetween)) 2
     = Formatter.EOF_TOKEN Samples.imports.
Proof.
  split; [|split].
  - apply (token_lookups_total Samples.imports
             (Samples.starting Formatter.Always 50 Samples.whereBetween) 2);
      [lia | simpl; lia].
  - apply (token_lookups_total Samples.imports
             (Samples.starting Formatter.Always 50 Samples.whereBetween) 2);
      [lia | reflexivity].
  - apply (token_lookups_total Samples.imports
             (Formatter.atIndex 4
                (Samples.starting Formatter.Always 50 Samples.whereBetween)) 2);
      [lia | simpl; lia].
Defined.

(** ** Dialect names *)

Lemma includes_In (l : list string) (s : string) :
  Api.includes l s = true <-> In s l.
Proof.
  unfold Api.includes. rewrite existsb_exists. split.
  - intros (x & Hx & E). apply String.eqb_eq in E. now subst.
  - intros H. exists s. split; [assumption | apply String.eqb_refl].
Qed.

(** The keys of [formatters] are the documented tags, no more, no less. *)
Lemma supportedDialects_documented (s : string) :
  In s Api.supportedDialects <-> In s documentedDialects.
Proof.
  unfold Api.supportedDialects, documentedDialects. simpl. tauto.
Qed.

(** C8.  With a [language] that is a string outside the documented set,
    [format] throws a ConfigError for every query string, before the
    options are validated and before any formatter runs; with a string
    inside the set the guard on the dialect name lets the call pass:
    [format] goes on to validate the merged options and, if they are
    accepted, to run the formatter they name. *)
Theorem unknown_dialect_is_config_error
  (validateConfig : Api.FormatOptions -> Api.Result Api.FormatOptions)
  (runFormatter : Api.Formatter -> Api.FormatOptions -> Api.JsValue
                  -> Api.Result string)
  (cfg : Api.PartialFormatOptions) (name : string) :
  Api.p_language cfg = Some (Api.LanguageName name) ->
  (~ In name documentedDialects ->
   forall query : string,
     Api.format validateConfig runFormatter (Api.JsString query) cfg
     = Api.Throw (Api.ConfigError ("Unsupported SQL dialect: " ++ name)))
  /\ (In name documentedDialects ->
      Api.unsupportedDialect cfg = None
      /\ forall query : string,
           Api.format validateConfig runFormatter (Api.JsString query) cfg
           = match validateConfig (Api.spread Api.defaultOptions cfg) with
             | Api.Throw e => Api.Throw e
             | Api.Ok options =>
                 match Api.language options with
                 | Api.LanguageName chosen =>
                     match Api.lookupFormatter chosen Api.formatters with
                     | Some cls => runFormatter cls options (Api.JsString query)
                     | None =>
                         Api.Throw
                           (Api.TypeError "FormatterCls is not a constructor")
                     end
                 | Api.LanguageClass cls =>
                     runFormatter cls options (Api.JsString query)
                 end
             end).
Proof.
  intros L. split.
  - intros Hout query. unfold Api.format, Api.unsupportedDialect.
    change (Api.validateQuery (Api.JsString query)) with (@None Api.Error).
    cbv beta iota. rewrite L.
    destruct (Api.includes Api.supportedDialects name) eqn:I; [|reflexivity].
    apply includes_In, supportedDialects_documented in I. contradiction.
  - intros Hin.
    assert (Api.unsupportedDialect cfg = None) as U.
    { unfold Api.unsupportedDialect. rewrite L.
      apply supportedDialects_documented, includes_In in Hin. now rewrite Hin. }
    split; [exact U|].
    intros query. unfold Api.format.
    change (Api.validateQuery (Api.JsString query)) with (@None Api.Error).
    cbv beta iota. now rewrite U.
Qed.

Lemma unknown_dialect_is_config_error_witness :
  Api.format Samples.acceptAll Samples.echo (Api.JsString "select 1")
    (Samples.onlyLanguage "oracle")
  = Api.Throw (Api.ConfigError "Unsupported SQL dialect: oracle")
  /\ Api.unsupportedDialect (Samples.onlyLanguage "tsql") = None
  /\ Api.format Samples.acceptAll Samples.echo (Api.JsString "select 1")
       (Samples.onlyLanguage "tsql")
     = Api.Ok "select 1".
Proof.
  split; [|split].
  - apply (proj1 (unknown_dialect_is_config_error Samples.acceptAll Samples.echo
                    (Samples.onlyLanguage "oracle") "oracle" eq_refl)).
    simpl. intros H.
    repeat (destruct H as [H|H]; [discriminate H|]). exact H.
  - apply (proj2 (unknown_dialect_is_config_error Samples.acceptAll Samples.echo
                    (Samples.onlyLanguage "tsql") "tsql" eq_refl)).
    simpl. tauto.
  - rewrite (proj2 (proj2 (unknown_dialect_is_config_error Samples.acceptAll
                             Samples.echo (Samples.onlyLanguage "tsql") "tsql"
                             eq_refl)
                      ltac:(simpl; tauto))).
    reflexivity.
Defined.

(** * Further properties *)

(** ** Neighbours and passes of the disambiguation *)


Lemma skipComments_forward_find (l : list Token) (i : nat) :
  forall (fuel k : nat),
    (length l - (i + k) < fuel)%nat ->
    match Lexer.skipComments fuel l (Z.of_nat i) 1 (Z.of_nat k) with
    | Some j => tokenAt l (Z.of_nat i + j * 1)
    | None => None
    end = find notComment (drop (i + k) l).
Proof.
  intros fuel. induction fuel as [|fuel IH]; intros k Hf; [lia|].
  simpl.
  replace (Z.of_nat i + Z.of_nat k * 1) with (Z.of_nat (i + k)) by lia.
  rewrite tokenAt_of_nat.
  destruct (l !! (i + k)%nat) as [t|] eqn:Ht.
  - rewrite (drop_S l t (i + k)) by assumption. simpl. unfold notComment at 1.
    destruct (Lexer.isComment t) eqn:C; simpl.
    + replace (Z.of_nat k + 1) with (Z.of_nat (S k)) by lia.
      rewrite IH.
      * now replace (i + S k)%nat with (S (i + k)) by lia.
      * apply lookup_lt_Some in Ht. lia.
    + replace (Z.of_nat i + Z.of_nat k * 1) with (Z.of_nat (i + k)) by lia.
      now rewrite tokenAt_of_nat.
  - replace (Z.of_nat i + Z.of_nat k * 1) with (Z.of_nat (i + k)) by lia.
    rewrite tokenAt_of_nat, Ht.
    apply lookup_ge_None in Ht. now rewrite drop_ge by lia.
Qed.

(** X1.  Looking forward from index [i], [nextNonCommentToken] returns the
    first token after [i] that is not a comment, and [undefined] when only
    comments, or nothing, follow. *)
Theorem nextNonCommentToken_first_after (l : list Token) (i : nat) :
  Lexer.nextNonCommentToken l (Z.of_nat i) 1 = find notComment (drop (S i) l).
Proof.
  unfold Lexer.nextNonCommentToken.
  change 1 with (Z.of_nat 1) at 2.
  rewrite skipComments_forward_find by lia.
  now replace (i + 1)%nat with (S i) by lia.
Qed.

Lemma skipComments_backward_find (l : list Token) (i : nat) :
  forall (fuel m : nat),
    (m <= i)%nat -> (m <= length l)%nat -> (m < fuel)%nat ->
    match Lexer.skipComments fuel l (Z.of_nat i) (-1)
            (Z.of_nat i - Z.of_nat m + 1) with
    | Some j => tokenAt l (Z.of_nat i + j * -1)
    | None => None
    end = find notComment (rev (take m l)).
Proof.
  intros fuel. induction fuel as [|fuel IH]; intros m Hi Hl Hf; [lia|].
  simpl.
  replace (Z.of_nat i + (Z.of_nat i - Z.of_nat m + 1) * -1)
    with (Z.of_nat m - 1) by lia.
  destruct m as [|m].
  - change (tokenAt l (Z.of_nat 0 - 1)) with (@None Token). cbv beta iota.
    replace (Z.of_nat i + (Z.of_nat i - Z.of_nat 0 + 1) * -1) with (-1) by lia.
    reflexivity.
  - replace (Z.of_nat (S m) - 1) with (Z.of_nat m) by lia.
    rewrite tokenAt_of_nat.
    destruct (l !! m) as [t|] eqn:Ht.
    2:{ apply lookup_ge_None in Ht. lia. }
    rewrite (take_S_r l m t) by assumption.
    rewrite rev_app_distr. simpl. unfold notComment at 1.
    destruct (Lexer.isComment t) eqn:C; simpl.
    + replace (Z.of_nat i - Z.of_nat (S m) + 1 + 1)
        with (Z.of_nat i - Z.of_nat m + 1) by lia.
      apply IH; lia.
    + replace (Z.of_nat i + (Z.of_nat i - Z.of_nat (S m) + 1) * -1)
        with (Z.of_nat m) by lia.
      now rewrite tokenAt_of_nat.
Qed.

(** X2.  Looking backward from an index [i] of the array (or its length),
    [prevNonCommentToken] returns the last token before [i] that is not a
    comment, and [undefined] when only comments, or nothing, come before. *)
Theorem prevNonCommentToken_last_before (l : list Token) (i : nat) :
  (i <= length l)%nat ->
  Lexer.prevNonCommentToken l (Z.of_nat i) = find notComment (rev (take i l)).
Proof.
  intros Hi. unfold Lexer.prevNonCommentToken, Lexer.nextNonCommentToken.
  replace 1 with (Z.of_nat i - Z.of_nat i + 1) at 1 by lia.
  apply skipComments_backward_find; lia.
Qed.

Lemma prevNonCommentToken_last_before_witness :
  Lexer.prevNonCommentToken Samples.dottedSelect (Z.of_nat 3)
  = find notComment (rev (take 3 Samples.dottedSelect)).
Proof. apply prevNonCommentToken_last_before. simpl. lia. Defined.

Lemma neighbour_answer_keepAnchors (p : Token -> bool) l l' index dir :
  (forall t, p t = true -> anchor (type t) = true) ->
  keepAnchors l l' ->
  p <$> Lexer.nextNonCommentToken l' index dir
  = p <$> Lexer.nextNonCommentToken l index dir.
Proof.
  intros Hp K.
  pose proof (nextNonCommentToken_keepAnchors l l' index dir K) as H.
  destruct (Lexer.nextNonCommentToken l index dir) as [n|],
           (Lexer.nextNonCommentToken l' index dir) as [n'|]; try easy.
  simpl. f_equal. unfold keepsAnchor in H.
  destruct (p n) eqn:Pn.
  - rewrite H; [assumption|]. rewrite (Hp n Pn). reflexivity.
  - destruct (p n') eqn:Pn'; [|reflexivity].
    rewrite H in Pn'; [congruence|]. rewrite (Hp n' Pn'). apply orb_true_r.
Qed.

Lemma isOpenBracket_anchor t : Lexer.isOpenBracket t = true -> anchor (type t) = true.
Proof.
  unfold Lexer.isOpenBracket. intros [H _]%andb_true_iff.
  apply TokenType_eqb_eq in H. now rewrite H.
Qed.

Ltac same_neighbour p Hp K l l' i :=
  let H := fresh "H" in
  pose proof (neighbour_answer_keepAnchors p l l' i 1 Hp K) as H;
  destruct (Lexer.nextNonCommentToken l' i 1),
           (Lexer.nextNonCommentToken l i 1);
  simpl in H; try discriminate H; try reflexivity;
  injection H as ->; reflexivity.

Lemma propertyNameKeywordToIdent_stream l l' t i :
  keepAnchors l l' ->
  Lexer.propertyNameKeywordToIdent t i l' = Lexer.propertyNameKeywordToIdent t i l.
Proof.
  intros K. unfold Lexer.propertyNameKeywordToIdent, Lexer.prevNonCommentToken.
  now rewrite !(isPropertyAccess_keepAnchors l l') by assumption.
Qed.

Lemma funcNameToIdent_stream l l' t i :
  keepAnchors l l' ->
  Lexer.funcNameToIdent t i l' = Lexer.funcNameToIdent t i l.
Proof.
  intros K. unfold Lexer.funcNameToIdent.
  destruct (TokenType_eqb (type t) RESERVED_FUNCTION_NAME); [|reflexivity].
  same_neighbour Lexer.isOpenParen isOpenParen_anchor K l l' i.
Qed.

Lemma dataTypeToParameterizedDataType_stream l l' t i :
  keepAnchors l l' ->
  Lexer.dataTypeToParameterizedDataType t i l'
  = Lexer.dataTypeToParameterizedDataType t i l.
Proof.
  intros K. unfold Lexer.dataTypeToParameterizedDataType.
  destruct (TokenType_eqb (type t) RESERVED_DATA_TYPE); [|reflexivity].
  same_neighbour Lexer.isOpenParen isOpenParen_anchor K l l' i.
Qed.

Lemma identToArrayIdent_stream l l' t i :
  keepAnchors l l' ->
  Lexer.identToArrayIdent t i l' = Lexer.identToArrayIdent t i l.
Proof.
  intros K. unfold Lexer.identToArrayIdent.
  destruct (TokenType_eqb (type t) IDENTIFIER); [|reflexivity].
  same_neighbour Lexer.isOpenBracket isOpenBracket_anchor K l l' i.
Qed.

Lemma dataTypeToArrayKeyword_stream l l' t i :
  keepAnchors l l' ->
  Lexer.dataTypeToArrayKeyword t i l' = Lexer.dataTypeToArrayKeyword t i l.
Proof.
  intros K. unfold Lexer.dataTypeToArrayKeyword.
  destruct (TokenType_eqb (type t) RESERVED_DATA_TYPE); [|reflexivity].
  same_neighbour Lexer.isOpenBracket isOpenBracket_anchor K l l' i.
Qed.

Lemma disambiguateAt_stream l l' t i :
  keepAnchors l l' -> disambiguateAt t i l' = disambiguateAt t i l.
Proof.
  intros K. unfold disambiguateAt.
  now rewrite (propertyNameKeywordToIdent_stream l l'),
    (funcNameToIdent_stream l l'),
    (dataTypeToParameterizedDataType_stream l l'),
    (identToArrayIdent_stream l l'),
    (dataTypeToArrayKeyword_stream l l') by assumption.
Qed.

Lemma lookup_fused (tokens : list Token) (i : nat) :
  Lexer.disambiguateTokens tokens !! i
  = (fun t => disambiguateAt t (Z.of_nat i) tokens) <$> tokens !! i.
Proof.
  pose proof (keepAnchors_s1 tokens) as K1.
  pose proof (keepAnchors_trans _ _ _ K1
                (isPass_keepAnchors Lexer.funcNameToIdent _ isPass_funcNameToIdent))
    as K2.
  pose proof (keepAnchors_trans _ _ _ K2
                (isPass_keepAnchors Lexer.dataTypeToParameterizedDataType _
                   isPass_dataTypeToParameterizedDataType)) as K3.
  pose proof (keepAnchors_trans _ _ _ K3
                (isPass_keepAnchors Lexer.identToArrayIdent _
                   isPass_identToArrayIdent)) as K4.
  unfold Lexer.disambiguateTokens. rewrite !lookup_jsMap.
  destruct (tokens !! i) as [t|]; [|reflexivity].
  simpl. f_equal. unfold disambiguateAt.
  now rewrite (funcNameToIdent_stream _ _ _ _ K1),
    (dataTypeToParameterizedDataType_stream _ _ _ _ K2),
    (identToArrayIdent_stream _ _ _ _ K3),
    (dataTypeToArrayKeyword_stream _ _ _ _ K4).
Qed.

(** X3.  The five passes are one pass: every token of the result is the
    input token sent through the five callbacks in turn, each of them
    looking at the neighbours in the input array.  What an earlier pass
    rewrote never changes what a later pass sees next to a token. *)
Theorem disambiguateTokens_one_pass (tokens : list Token) :
  Lexer.disambiguateTokens tokens = jsMap disambiguateAt tokens.
Proof.
  apply list_eq. intros i.
  rewrite lookup_jsMap. apply lookup_fused.
Qed.

Lemma disambiguateAt_rewriteWith (t : Token) (i : Z) (l : list Token) :
  disambiguateAt t i l
  = rewriteWith t (dotNextTo l i)
      (answers Lexer.isOpenParen (Lexer.nextNonCommentToken l i 1))
      (answers Lexer.isOpenBracket (Lexer.nextNonCommentToken l i 1)).
Proof.
  unfold disambiguateAt, rewriteWith, dotNextTo,
    Lexer.propertyNameKeywordToIdent, Lexer.funcNameToIdent,
    Lexer.dataTypeToParameterizedDataType, Lexer.identToArrayIdent,
    Lexer.dataTypeToArrayKeyword.
  destruct (Lexer.isPropertyAccess (Lexer.prevNonCommentToken l i));
    destruct (Lexer.isPropertyAccess (Lexer.nextNonCommentToken l i 1));
    destruct (Lexer.nextNonCommentToken l i 1) as [n|]; simpl;
    try destruct (Lexer.isOpenParen n); try destruct (Lexer.isOpenBracket n);
    destruct t as [ty r tx v w s]; destruct ty; reflexivity.
Qed.

Lemma rewriteWith_idempotent (t : Token) (dot paren bracket : bool) :
  rewriteWith (rewriteWith t dot paren bracket) dot paren bracket
  = rewriteWith t dot paren bracket.
Proof.
  destruct t as [ty r tx v w s].
  destruct ty, dot, paren, bracket; reflexivity.
Qed.

Lemma lookup_disambiguateTokens (tokens : list Token) (i : nat) :
  Lexer.disambiguateTokens tokens !! i
  = (fun t => rewriteWith t (dotNextTo tokens (Z.of_nat i))
                (answers Lexer.isOpenParen
                   (Lexer.nextNonCommentToken tokens (Z.of_nat i) 1))
                (answers Lexer.isOpenBracket
                   (Lexer.nextNonCommentToken tokens (Z.of_nat i) 1)))
    <$> tokens !! i.
Proof.
  rewrite lookup_fused.
  destruct (tokens !! i); [|reflexivity].
  simpl. now rewrite disambiguateAt_rewriteWith.
Qed.

Lemma answers_disambiguateTokens (p : Token -> bool) (tokens : list Token) (i : Z) :
  (forall t, p t = true -> anchor (type t) = true) ->
  answers p (Lexer.nextNonCommentToken (Lexer.disambiguateTokens tokens) i 1)
  = answers p (Lexer.nextNonCommentToken tokens i 1).
Proof.
  intros Hp. apply neighbour_test_keepAnchors; [assumption | apply keepAnchors_s5].
Qed.

Lemma dotNextTo_disambiguateTokens (tokens : list Token) (i : Z) :
  dotNextTo (Lexer.disambiguateTokens tokens) i = dotNextTo tokens i.
Proof.
  unfold dotNextTo, Lexer.prevNonCommentToken.
  now rewrite !(isPropertyAccess_keepAnchors tokens (Lexer.disambiguateTokens tokens))
    by apply keepAnchors_s5.
Qed.

(** X4.  Disambiguating a stream that is already disambiguated changes
    nothing. *)
Theorem disambiguateTokens_idempotent (tokens : list Token) :
  Lexer.disambiguateTokens (Lexer.disambiguateTokens tokens)
  = Lexer.disambiguateTokens tokens.
Proof.
  apply list_eq. intros i.
  rewrite (lookup_disambiguateTokens (Lexer.disambiguateTokens tokens)).
  rewrite (lookup_disambiguateTokens tokens).
  destruct (tokens !! i); [|reflexivity].
  simpl. f_equal.
  rewrite dotNextTo_disambiguateTokens.
  rewrite (answers_disambiguateTokens Lexer.isOpenParen) by apply isOpenParen_anchor.
  rewrite (answers_disambiguateTokens Lexer.isOpenBracket)
    by apply isOpenBracket_anchor.
  apply rewriteWith_idempotent.
Qed.

Ltac flag_cases tokens i :=
  unfold rewriteWith;
  generalize (dotNextTo tokens (Z.of_nat i))
    (answers Lexer.isOpenParen (Lexer.nextNonCommentToken tokens (Z.of_nat i) 1))
    (answers Lexer.isOpenBracket (Lexer.nextNonCommentToken tokens (Z.of_nat i) 1));
  intros [] [] [].

(** X5.  A token that leaves [disambiguateTokens] as
    RESERVED_PARAMETERIZED_DATA_TYPE without having entered as one was a
    RESERVED_DATA_TYPE, and its nearest non-comment successor in the result
    is an opening parenthesis. *)
Theorem new_parameterized_data_type_before_open_paren
  (tokens : list Token) (i : nat) (t t' : Token) :
  tokens !! i = Some t ->
  Lexer.disambiguateTokens tokens !! i = Some t' ->
  type t' = RESERVED_PARAMETERIZED_DATA_TYPE ->
  type t <> RESERVED_PARAMETERIZED_DATA_TYPE ->
  type t = RESERVED_DATA_TYPE
  /\ exists n,
       Lexer.nextNonCommentToken (Lexer.disambiguateTokens tokens) (Z.of_nat i) 1
       = Some n /\ Lexer.isOpenParen n = true.
Proof.
  intros H0 H5 T' T.
  rewrite lookup_disambiguateTokens, H0 in H5. simpl in H5. injection H5 as E.
  assert (type t = RESERVED_DATA_TYPE
          /\ answers Lexer.isOpenParen
               (Lexer.nextNonCommentToken tokens (Z.of_nat i) 1) = true) as [Ty P].
  { revert E T' T. clear H0. flag_cases tokens i;
      destruct t as [ty r tx v w s]; destruct ty; simpl;
      intros <-; simpl; intros; try congruence; split; reflexivity. }
  split; [exact Ty|].
  pose proof (answers_disambiguateTokens Lexer.isOpenParen tokens (Z.of_nat i)
                isOpenParen_anchor) as A.
  rewrite P in A. unfold answers in A.
  destruct (Lexer.nextNonCommentToken (Lexer.disambiguateTokens tokens) _ _)
    as [n|]; [|discriminate].
  eauto.
Qed.

Lemma new_parameterized_data_type_before_open_paren_witness :
  type Cases.varchar = RESERVED_DATA_TYPE
  /\ exists n,
       Lexer.nextNonCommentToken (Lexer.disambiguateTokens Cases.varcharCall)
         (Z.of_nat 0) 1 = Some n
       /\ Lexer.isOpenParen n = true.
Proof.
  apply (new_parameterized_data_type_before_open_paren Cases.varcharCall 0%nat
           Cases.varchar
           (Lexer.withType RESERVED_PARAMETERIZED_DATA_TYPE Cases.varchar));
    [reflexivity | reflexivity | reflexivity | discriminate].
Defined.

(** X6.  A token that [disambiguateTokens] has turned into an
    ARRAY_IDENTIFIER or an ARRAY_KEYWORD has an opening square bracket as
    its nearest non-comment successor in the result. *)
Theorem new_array_token_before_open_bracket
  (tokens : list Token) (i : nat) (t t' : Token) :
  tokens !! i = Some t ->
  Lexer.disambiguateTokens tokens !! i = Some t' ->
  type t' = ARRAY_IDENTIFIER \/ type t' = ARRAY_KEYWORD ->
  type t <> type t' ->
  exists n,
    Lexer.nextNonCommentToken (Lexer.disambiguateTokens tokens) (Z.of_nat i) 1
    = Some n /\ Lexer.isOpenBracket n = true.
Proof.
  intros H0 H5 T' T.
  rewrite lookup_disambiguateTokens, H0 in H5. simpl in H5. injection H5 as E.
  assert (answers Lexer.isOpenBracket
            (Lexer.nextNonCommentToken tokens (Z.of_nat i) 1) = true) as P.
  { revert E T' T. clear H0. flag_cases tokens i;
      destruct t as [ty r tx v w s]; destruct ty; simpl;
      intros <-; simpl; intros [|]; intros; try congruence; reflexivity. }
  pose proof (answers_disambiguateTokens Lexer.isOpenBracket tokens (Z.of_nat i)
                isOpenBracket_anchor) as A.
  rewrite P in A. unfold answers in A.
  destruct (Lexer.nextNonCommentToken (Lexer.disambiguateTokens tokens) _ _)
    as [n|]; [|discriminate].
  eauto.
Qed.

Lemma new_array_token_before_open_bracket_witness :
  exists n,
    Lexer.nextNonCommentToken (Lexer.disambiguateTokens Cases.indexed)
      (Z.of_nat 0) 1 = Some n
    /\ Lexer.isOpenBracket n = true.
Proof.
  apply (new_array_token_before_open_bracket Cases.indexed 0%nat
           (Samples.tok IDENTIFIER "a")
           (Lexer.withType ARRAY_IDENTIFIER (Samples.tok IDENTIFIER "a")));
    [reflexivity | reflexivity | left; reflexivity | discriminate].
Defined.

(** X7.  A token that is neither reserved nor an IDENTIFIER (a string, a
    number, an operator, a quoted identifier, a bracket, ...) is returned
    as it is, whatever stands next to it. *)
Theorem other_categories_untouched (tokens : list Token) (i : nat) (t : Token) :
  tokens !! i = Some t ->
  Lexer.isReserved (type t) = false ->
  type t <> IDENTIFIER ->
  Lexer.disambiguateTokens tokens !! i = Some t.
Proof.
  intros H0 R I. rewrite lookup_disambiguateTokens, H0. simpl. f_equal.
  revert R I. clear H0. flag_cases tokens i;
    destruct t as [ty r tx v w s]; destruct ty; simpl;
    intros; try congruence; reflexivity.
Qed.

Lemma other_categories_untouched_witness :
  Lexer.disambiguateTokens Cases.quoted !! 0%nat = Some (Samples.tok STRING "'x'").
Proof.
  apply other_categories_untouched; [reflexivity | reflexivity | discriminate].
Defined.

(** X8.  [disambiguateTokens] makes no keywords: a reserved token of the
    result is the input token at that index, unchanged, or the
    parameterized form of a RESERVED_DATA_TYPE. *)
Theorem reserved_tokens_are_not_made (tokens : list Token) (i : nat) (t' : Token) :
  Lexer.disambiguateTokens tokens !! i = Some t' ->
  Lexer.isReserved (type t') = true ->
  tokens !! i = Some t'
  \/ exists t, tokens !! i = Some t /\ type t = RESERVED_DATA_TYPE
               /\ t' = Lexer.withType RESERVED_PARAMETERIZED_DATA_TYPE t.
Proof.
  intros H5 R. rewrite lookup_disambiguateTokens in H5.
  destruct (tokens !! i) as [t|]; [|discriminate].
  simpl in H5. injection H5 as E. revert E R.
  flag_cases tokens i;
    destruct t as [ty r tx v w s]; destruct ty; simpl;
    intros <-; simpl; intros; try congruence; eauto.
Qed.

Lemma reserved_tokens_are_not_made_witness :
  Samples.selectFrom !! 2%nat = Some (Samples.tok RESERVED_COMMAND "from")
  \/ exists t, Samples.selectFrom !! 2%nat = Some t
                /\ type t = RESERVED_DATA_TYPE
                /\ Samples.tok RESERVED_COMMAND "from"
                   = Lexer.withType RESERVED_PARAMETERIZED_DATA_TYPE t.
Proof. apply reserved_tokens_are_not_made; reflexivity. Defined.

(** X9.  A RESERVED_DATA_TYPE with no property access next to it becomes
    parameterized before an opening parenthesis, an ARRAY_KEYWORD before
    an opening square bracket, and stays as it is otherwise; an IDENTIFIER
    becomes an ARRAY_IDENTIFIER before an opening square bracket and stays
    as it is otherwise.  The neighbour is the nearest non-comment token of
    the input. *)
Theorem data_type_and_identifier_outcome (tokens : list Token) (i : nat) (t : Token) :
  tokens !! i = Some t ->
  (type t = RESERVED_DATA_TYPE ->
   dotNextTo tokens (Z.of_nat i) = false ->
   Lexer.disambiguateTokens tokens !! i
   = Some (if answers Lexer.isOpenParen
                (Lexer.nextNonCommentToken tokens (Z.of_nat i) 1)
           then Lexer.withType RESERVED_PARAMETERIZED_DATA_TYPE t
           else if answers Lexer.isOpenBracket
                     (Lexer.nextNonCommentToken tokens (Z.of_nat i) 1)
                then Lexer.withType ARRAY_KEYWORD t
                else t))
  /\ (type t = IDENTIFIER ->
      Lexer.disambiguateTokens tokens !! i
      = Some (if answers Lexer.isOpenBracket
                   (Lexer.nextNonCommentToken tokens (Z.of_nat i) 1)
              then Lexer.withType ARRAY_IDENTIFIER t
              else t)).
Proof.
  intros H0. rewrite lookup_disambiguateTokens, H0. simpl. clear H0. split.
  - intros T D. rewrite D. f_equal. revert T. flag_cases tokens i;
      destruct t as [ty r tx v w s]; simpl; intros ->; reflexivity.
  - intros T. f_equal. revert T. flag_cases tokens i;
      destruct t as [ty r tx v w s]; simpl; intros ->; reflexivity.
Qed.

Lemma data_type_and_identifier_outcome_witness :
  Lexer.disambiguateTokens Cases.varcharCall !! 0%nat
  = Some (Lexer.withType RESERVED_PARAMETERIZED_DATA_TYPE Cases.varchar)
  /\ Lexer.disambiguateTokens Cases.indexed !! 0%nat
     = Some (Lexer.withType ARRAY_IDENTIFIER (Samples.tok IDENTIFIER "a")).
Proof.
  split.
  - apply (proj1 (data_type_and_identifier_outcome Cases.varcharCall 0%nat
                    Cases.varchar eq_refl)); reflexivity.
  - apply (proj2 (data_type_and_identifier_outcome Cases.indexed 0%nat
                    (Samples.tok IDENTIFIER "a") eq_refl)); reflexivity.
Defined.

(** ** Collected tokens, clauses and widths *)



Lemma upTo_no_stop (p : Token -> bool) (l : list Token) :
  forallb (fun t => negb (p t)) (Formatter.upTo p l) = true.
Proof.
  induction l as [|t l IH]; simpl; [reflexivity|].
  destruct (p t) eqn:P; simpl; [reflexivity|]. now rewrite P.
Qed.

Lemma removelast_no_stop (p : Token -> bool) (l : list Token) :
  existsb p l = false -> forallb (fun t => negb (p t)) (removelast l) = true.
Proof.
  induction l as [|t l IH]; simpl; [reflexivity|].
  intros [P E]%orb_false_iff. destruct l as [|u l]; [reflexivity|].
  change (forallb (fun t => negb (p t)) (t :: removelast (u :: l)) = true).
  simpl forallb at 1. rewrite P. simpl. now apply IH.
Qed.

(** X10.  What [tokensUntilNextCommandOrQueryEnd] returns: when a
    reserved command or a semicolon follows the current token, the tokens
    strictly before the first of them; when none follows, the remaining
    tokens without the last one. *)
Theorem tokensUntilNextCommandOrQueryEnd_cases (imp : Formatter.Imports)
  (st : Formatter.State) :
  0 <= Formatter.index st ->
  Formatter.tokensUntilNextCommandOrQueryEnd imp st
  = if existsb (isStop imp) (tokensAfter st)
    then Formatter.upTo (isStop imp) (tokensAfter st)
    else removelast (tokensAfter st).
Proof.
  intros Hi. unfold tokensAfter.
  destruct (existsb (isStop imp) _) eqn:E.
  - now rewrite tokensUntilNextCommandOrQueryEnd_found.
  - destruct (drop (Z.to_nat (Formatter.index st + 1)) (Formatter.tokens st))
      as [|t l] eqn:D.
    + now destruct (tokensUntilNextCommandOrQueryEnd_nothing_left imp st Hi D).
    + rewrite <- D in *.
      apply tokensUntilNextCommandOrQueryEnd_not_found; [assumption| |assumption].
      rewrite D. discriminate.
Qed.

Lemma tokensUntilNextCommandOrQueryEnd_cases_witness :
  Formatter.tokensUntilNextCommandOrQueryEnd Samples.imports
    (Samples.starting Formatter.Avoid 50 Samples.selectCaseFrom)
  = if existsb (isStop Samples.imports)
         (tokensAfter (Samples.starting Formatter.Avoid 50 Samples.selectCaseFrom))
    then Formatter.upTo (isStop Samples.imports)
           (tokensAfter (Samples.starting Formatter.Avoid 50 Samples.selectCaseFrom))
    else removelast
           (tokensAfter (Samples.starting Formatter.Avoid 50 Samples.selectCaseFrom)).
Proof. apply tokensUntilNextCommandOrQueryEnd_cases. simpl. lia. Defined.

(** X11.  The collected tokens are always a prefix of the tokens after the
    current one, and none of them is a reserved command or a semicolon. *)
Theorem tokensUntilNextCommandOrQueryEnd_prefix (imp : Formatter.Imports)
  (st : Formatter.State) :
  0 <= Formatter.index st ->
  (exists rest,
     tokensAfter st
     = (Formatter.tokensUntilNextCommandOrQueryEnd imp st ++ rest)%list)
  /\ forallb (fun t => negb (isStop imp t))
       (Formatter.tokensUntilNextCommandOrQueryEnd imp st) = true.
Proof.
  intros Hi. unfold tokensAfter.
  destruct (existsb (isStop imp)
              (drop (Z.to_nat (Formatter.index st + 1)) (Formatter.tokens st))) eqn:E.
  - rewrite tokensUntilNextCommandOrQueryEnd_found by assumption.
    unfold Formatter.documentedTokensUntilNextCommandOrQueryEnd. fold (isStop imp).
    split; [|apply upTo_no_stop].
    destruct (upTo_prefix (isStop imp)
                (drop (Z.to_nat (Formatter.index st + 1)) (Formatter.tokens st)))
      as [P _].
    set (tail := drop (Z.to_nat (Formatter.index st + 1)) (Formatter.tokens st)) in *.
    exists (drop (length (Formatter.upTo (isStop imp) tail)) tail).
    rewrite <- (take_drop (length (Formatter.upTo (isStop imp) tail)) tail) at 1.
    now rewrite <- P.
  - destruct (drop (Z.to_nat (Formatter.index st + 1)) (Formatter.tokens st))
      as [|t l] eqn:D.
    + destruct (tokensUntilNextCommandOrQueryEnd_nothing_left imp st Hi D) as [-> _].
      split; [now exists [] | reflexivity].
    + rewrite <- D in E.
      destruct (tokensUntilNextCommandOrQueryEnd_not_found imp st Hi) as [-> _];
        [rewrite D; discriminate | assumption |].
      rewrite D in *. split; [|now apply removelast_no_stop].
      exists [List.last (t :: l) t]. apply app_removelast_last. discriminate.
Qed.

Lemma tokensUntilNextCommandOrQueryEnd_prefix_witness :
  (exists rest,
     tokensAfter (Samples.starting Formatter.Avoid 50 Samples.selectAB)
     = (Formatter.tokensUntilNextCommandOrQueryEnd Samples.imports
          (Samples.starting Formatter.Avoid 50 Samples.selectAB) ++ rest)%list)
  /\ forallb (fun t => negb (isStop Samples.imports t))
       (Formatter.tokensUntilNextCommandOrQueryEnd Samples.imports
          (Samples.starting Formatter.Avoid 50 Samples.selectAB)) = true.
Proof. apply tokensUntilNextCommandOrQueryEnd_prefix. simpl. lia. Defined.


Lemma countClausesFrom_step (t : Token) (l : list Token) (count openBlocks : Z) :
  Formatter.countClausesFrom (t :: l) count openBlocks
  = Formatter.countClausesFrom l
      (if isComma t && (openBlocks =? 0) then count + 1 else count)
      (depthStep openBlocks t).
Proof. reflexivity. Qed.

(** X12.  There is always at least one clause, and never more than one
    plus the number of commas. *)
Theorem countClauses_bounds (l : list Token) :
  1 <= Formatter.countClauses l
  <= 1 + Z.of_nat (length (filter (fun t => isComma t = true) l)).
Proof.
  unfold Formatter.countClauses.
  assert (forall count openBlocks,
             count <= Formatter.countClausesFrom l count openBlocks
             <= count + Z.of_nat (length (filter (fun t => isComma t = true) l)))
    as General; [|apply General].
  induction l as [|t l IH]; intros count openBlocks.
  - simpl. lia.
  - rewrite countClausesFrom_step.
    rewrite filter_cons. destruct (decide (isComma t = true)) as [C|C].
    + rewrite C. simpl length.
      destruct (openBlocks =? 0); simpl andb.
      * specialize (IH (count + 1) (depthStep openBlocks t)). lia.
      * specialize (IH count (depthStep openBlocks t)). lia.
    + apply not_true_is_false in C. rewrite C. simpl andb. apply IH.
Qed.

(** X13.  Counting composes: the clauses of a list in two parts are
    counted by going through the first part and then through the second,
    from the count and the number of open blocks that the first part
    leaves. *)
Theorem countClauses_composes (l1 l2 : list Token) (count openBlocks : Z) :
  Formatter.countClausesFrom (l1 ++ l2)%list count openBlocks
  = Formatter.countClausesFrom l2
      (Formatter.countClausesFrom l1 count openBlocks)
      (depthAfter l1 openBlocks).
Proof.
  revert count openBlocks. induction l1 as [|t l1 IH]; intros count openBlocks.
  - reflexivity.
  - change ((t :: l1) ++ l2)%list with (t :: (l1 ++ l2))%list.
    rewrite !countClausesFrom_step. simpl depthAfter. apply IH.
Qed.

Lemma countClausesFrom_inside (l rest : list Token) (count openBlocks : Z) :
  staysInside l openBlocks = true ->
  Formatter.countClausesFrom (l ++ rest)%list count openBlocks
  = Formatter.countClausesFrom rest count (depthAfter l openBlocks).
Proof.
  revert count openBlocks. induction l as [|t l IH]; intros count openBlocks.
  - reflexivity.
  - simpl staysInside. intros [D S]%andb_true_iff.
    change ((t :: l) ++ rest)%list with (t :: (l ++ rest))%list.
    rewrite countClausesFrom_step.
    assert ((openBlocks =? 0) = false) as -> by (apply Z.eqb_neq; lia).
    rewrite andb_false_r. simpl depthAfter. now apply IH.
Qed.

(** X14.  A bracketed group met outside every block adds no clause: when
    the tokens after the opening bracket are all met inside it and bring
    the counter back to zero, counting goes on after the group as if the
    group were not there. *)
Theorem countClauses_skips_block (open : Token) (body rest : list Token)
  (count : Z) :
  type open = BLOCK_START ->
  isComma open = false ->
  staysInside body 1 = true ->
  depthAfter body 1 = 0 ->
  Formatter.countClausesFrom (open :: body ++ rest)%list count 0
  = Formatter.countClausesFrom rest count 0.
Proof.
  intros T C S D.
  rewrite countClausesFrom_step, C. simpl andb.
  assert (depthStep 0 open = 1) as -> by (unfold depthStep; rewrite T; reflexivity).
  rewrite countClausesFrom_inside by assumption. now rewrite D.
Qed.

Lemma countClauses_skips_block_witness :
  Formatter.countClausesFrom
    (Cases.openParen :: Cases.groupBody ++ Cases.afterGroup)%list 1 0
  = Formatter.countClausesFrom Cases.afterGroup 1 0.
Proof. apply countClauses_skips_block; reflexivity. Defined.

Lemma countClausesFrom_below_zero (l : list Token) (count openBlocks : Z) :
  openBlocks < 0 ->
  forallb (fun t => negb (TokenType_eqb (type t) BLOCK_START)) l = true ->
  Formatter.countClausesFrom l count openBlocks = count.
Proof.
  revert count openBlocks. induction l as [|t l IH]; intros count openBlocks D.
  - reflexivity.
  - simpl forallb. intros [B F]%andb_true_iff.
    rewrite countClausesFrom_step.
    assert ((openBlocks =? 0) = false) as -> by (apply Z.eqb_neq; lia).
    rewrite andb_false_r. apply IH; [|assumption].
    unfold depthStep. apply negb_true_iff in B. rewrite B.
    destruct (TokenType_eqb (type t) BLOCK_END); lia.
Qed.

(** X15.  A closing bracket met with no block open sends the counter
    below zero; unless a block is opened later, no comma after it counts:
    the result is the clause count of the tokens before the bracket, and so
    one clause when the bracket comes first. *)
Theorem countClauses_after_stray_block_end (before : list Token)
  (close : Token) (l : list Token) :
  depthAfter before 0 = 0 ->
  type close = BLOCK_END ->
  isComma close = false ->
  forallb (fun t => negb (TokenType_eqb (type t) BLOCK_START)) l = true ->
  Formatter.countClauses (before ++ close :: l)%list
  = Formatter.countClauses before
  /\ Formatter.countClauses (close :: l) = 1.
Proof.
  intros D T C F.
  assert (forall count, Formatter.countClausesFrom (close :: l) count 0 = count)
    as Stray.
  { intros count. rewrite countClausesFrom_step, C. simpl andb.
    apply countClausesFrom_below_zero; [|assumption].
    unfold depthStep. now rewrite T. }
  split; [|apply Stray].
  unfold Formatter.countClauses.
  assert (forall openBlocks count,
             depthAfter before openBlocks = 0 ->
             Formatter.countClausesFrom (before ++ close :: l)%list count openBlocks
             = Formatter.countClausesFrom before count openBlocks)
    as General; [|now apply General].
  clear D. induction before as [|t before IH]; intros openBlocks count D.
  - simpl in D. subst openBlocks. apply Stray.
  - change ((t :: before) ++ close :: l)%list
      with (t :: (before ++ close :: l))%list.
    rewrite !countClausesFrom_step. apply IH. exact D.
Qed.

Lemma countClauses_after_stray_block_end_witness :
  Formatter.countClauses
    ([Samples.comma] ++ Cases.closeParen :: Cases.afterGroup)%list
  = Formatter.countClauses [Samples.comma]
  /\ Formatter.countClauses [Samples.comma] = 2
  /\ Formatter.countClauses (Cases.closeParen :: Cases.afterGroup) = 1.
Proof.
  destruct (countClauses_after_stray_block_end [Samples.comma] Cases.closeParen
              Cases.afterGroup eq_refl eq_refl eq_refl eq_refl) as [H1 H2].
  split; [exact H1|]. split; [reflexivity | exact H2].
Defined.


Lemma length_append (a b : string) :
  String.length (a ++ b) = (String.length a + String.length b)%nat.
Proof. induction a as [|c a IH]; simpl; [reflexivity | now rewrite IH]. Qed.

Lemma length_spaced_value (t : Token) :
  Z.of_nat
    (String.length (if (value t =? ",")%string then value t ++ " " else value t))
  = tokenWidth t.
Proof.
  unfold tokenWidth, isComma.
  destruct (value t =? ",")%string; [rewrite length_append; simpl|]; lia.
Qed.

Lemma length_concat_cons (x : string) (l : list string) :
  String.length (String.concat "" (x :: l))
  = (String.length x + String.length (String.concat "" l))%nat.
Proof.
  destruct l as [|y l]; simpl.
  - lia.
  - now rewrite length_append.
Qed.

Lemma length_concat_values (l : list Token) :
  Z.of_nat
    (String.length
       (String.concat ""
          (map (fun t => if (value t =? ",")%string then value t ++ " " else value t) l)))
  = tokensWidth l.
Proof.
  induction l as [|t l IH]; [reflexivity|].
  rewrite map_cons, length_concat_cons. cbn [tokensWidth].
  rewrite <- IH, <- length_spaced_value. lia.
Qed.

Lemma tokensWidth_nonneg (l : list Token) : 0 <= tokensWidth l.
Proof.
  induction l as [|t l IH]; simpl; [lia|].
  unfold tokenWidth. destruct (isComma t); lia.
Qed.

Lemma tokensWidth_app (l1 l2 : list Token) :
  tokensWidth (l1 ++ l2)%list = tokensWidth l1 + tokensWidth l2.
Proof. induction l1 as [|t l1 IH]; simpl; [reflexivity | rewrite IH; lia]. Qed.

Lemma inlineWidth_closed_form (token : Token) (l : list Token) :
  Formatter.inlineWidth token l
  = Z.of_nat (String.length (whitespaceBefore token))
    + Z.of_nat (String.length (value token)) + 1 + tokensWidth l.
Proof.
  unfold Formatter.inlineWidth. rewrite !length_append. simpl String.length at 3.
  rewrite <- length_concat_values. lia.
Qed.

(** X16.  The inline width is the length of the command's leading
    whitespace and of its value, one for the space, and for every collected
    token the length of its value, a comma counting one more; so it never
    shrinks when more tokens are collected. *)
Theorem inlineWidth_sum (token : Token) (l1 l2 : list Token) :
  Formatter.inlineWidth token l1
  = Z.of_nat (String.length (whitespaceBefore token))
    + Z.of_nat (String.length (value token)) + 1 + tokensWidth l1
  /\ Formatter.inlineWidth token (l1 ++ l2)%list
     = Formatter.inlineWidth token l1 + tokensWidth l2
  /\ Formatter.inlineWidth token l1 <= Formatter.inlineWidth token (l1 ++ l2)%list.
Proof.
  rewrite !inlineWidth_closed_form, tokensWidth_app.
  pose proof (tokensWidth_nonneg l2). lia.
Qed.


(** X17.  Widening [expressionWidth] never turns a command to multi-line
    mode: a command that is multi-line under a width is multi-line under
    every smaller width, all else equal. *)
Theorem checkNewline_wider_is_never_more_lines (imp : Formatter.Imports)
  (st : Formatter.State) (token : Token) (w w' : Z) :
  w <= w' ->
  Formatter.checkNewline imp (withExpressionWidth w' st) token = true ->
  Formatter.checkNewline imp (withExpressionWidth w st) token = true.
Proof.
  intros Hw. unfold Formatter.checkNewline.
  change (Formatter.tokensUntilNextCommandOrQueryEnd imp (withExpressionWidth w' st))
    with (Formatter.tokensUntilNextCommandOrQueryEnd imp st).
  change (Formatter.tokensUntilNextCommandOrQueryEnd imp (withExpressionWidth w st))
    with (Formatter.tokensUntilNextCommandOrQueryEnd imp st).
  change (Formatter.isWithinSelect imp (withExpressionWidth w' st))
    with (Formatter.isWithinSelect imp st).
  change (Formatter.isWithinSelect imp (withExpressionWidth w st))
    with (Formatter.isWithinSelect imp st).
  cbn [withExpressionWidth Formatter.cfg Formatter.multilineLists
         Formatter.expressionWidth].
  destruct (Formatter.isWithinSelect imp st && _); [reflexivity|].
  destruct (Formatter.multilineLists (Formatter.cfg st)); try easy.
  - intros H. apply Z.gtb_lt in H. apply Z.gtb_lt. lia.
  - intros [H|H]%orb_true_iff; apply orb_true_iff; [now left | right].
    apply Z.gtb_lt in H. apply Z.gtb_lt. lia.
Qed.

Lemma checkNewline_wider_is_never_more_lines_witness :
  Formatter.checkNewline Samples.imports
    (withExpressionWidth 3
       (Samples.starting Formatter.ExpressionWidth 0 Samples.selectAB))
    Samples.SELECT = true.
Proof.
  apply (checkNewline_wider_is_never_more_lines Samples.imports
           (Samples.starting Formatter.ExpressionWidth 0 Samples.selectAB)
           Samples.SELECT 3 5); [lia | reflexivity].
Defined.


(** ** Turns of the loop *)

Ltac split_conditions :=
  repeat match goal with
    | |- context [if ?b then _ else _] => destruct b
    | |- context [match ?x with _ => _ end] => destruct x
    end.

Ltac written :=
  cbn; split; [repeat split|];
  eexists; split; [| rewrite <- ?app_assoc; reflexivity]; discriminate.

Lemma noteReserved_frame (imp : Formatter.Imports) (tk : Token)
  (st : Formatter.State) :
  sameFormatter st (fst (Formatter.noteReserved imp tk st))
  /\ Formatter.calls (fst (Formatter.noteReserved imp tk st)) = Formatter.calls st
  /\ Formatter.currentNewline (fst (Formatter.noteReserved imp tk st))
     = Formatter.currentNewline st.
Proof.
  unfold Formatter.noteReserved. split_conditions; cbn; repeat split.
Qed.

(** X18.  A turn of the loop on a comment line, a command, a dependent
    clause, a join condition, a logical operator, a CASE or an operator
    only writes: the options, the tokens, the index and the inline-block
    state are as before, and the calls made are the earlier calls followed
    by at least one new call. *)
Theorem formatToken_frame (imp : Formatter.Imports) (st st' : Formatter.State) :
  Formatter.formatToken imp st = Some st' ->
  sameFormatter st st'
  /\ exists written,
       written <> []
       /\ Formatter.calls st' = (Formatter.calls st ++ written)%list.
Proof.
  unfold Formatter.formatToken.
  destruct (tokenAt (Formatter.tokens st) (Formatter.index st)) as [tk|];
    [|discriminate].
  pose proof (noteReserved_frame imp tk st) as N.
  destruct (Formatter.noteReserved imp tk st) as [st1 tk1].
  cbn [fst] in N. destruct N as ((C & T & I & A) & L & _).
  unfold sameFormatter. rewrite <- C, <- T, <- I, <- A, <- L. clear C T I A L.
  destruct (type tk1); try discriminate; intros [= <-].
  - unfold Formatter.formatCommand. split_conditions; written.
  - unfold Formatter.formatDependentClause. written.
  - unfold Formatter.formatJoinCondition. written.
  - unfold Formatter.formatLogicalOperator. split_conditions; written.
  - unfold Formatter.formatCaseStart. split_conditions; written.
  - unfold Formatter.formatOperator, Formatter.formatComma,
      Formatter.formatQuerySeparator. split_conditions; written.
  - unfold Formatter.formatLineComment. written.
Qed.

Lemma formatToken_frame_witness :
  exists st',
    Formatter.formatToken Samples.imports
      (Samples.starting Formatter.Always 50 Samples.selectAB) = Some st'
    /\ sameFormatter (Samples.starting Formatter.Always 50 Samples.selectAB) st'
    /\ exists written,
         written <> []
         /\ Formatter.calls st'
            = (Formatter.calls
                 (Samples.starting Formatter.Always 50 Samples.selectAB)
               ++ written)%list.
Proof.
  eexists. split; [reflexivity|].
  apply (formatToken_frame Samples.imports). reflexivity.
Defined.

Lemma tokenAt_In (l : list Token) (z : Z) (t : Token) :
  tokenAt l z = Some t -> In t l.
Proof.
  unfold tokenAt. destruct (z <? 0); [discriminate|].
  intros H. apply list_elem_of_In. eapply list_elem_of_lookup_2. eassumption.
Qed.

Lemma handlers_keep_previous (imp : Formatter.Imports) (st st' : Formatter.State)
  (tk : Token) :
  tokenAt (Formatter.tokens st) (Formatter.index st) = Some tk ->
  Formatter.formatToken imp st = Some st' ->
  Formatter.previousReservedToken st'
  = Formatter.previousReservedToken (fst (Formatter.noteReserved imp tk st))
  /\ Formatter.previousCommandToken st'
     = Formatter.previousCommandToken (fst (Formatter.noteReserved imp tk st))
  /\ Formatter.tokens st' = Formatter.tokens st.
Proof.
  intros H. unfold Formatter.formatToken. rewrite H.
  destruct (noteReserved_frame imp tk st) as ((_ & T & _) & _).
  destruct (Formatter.noteReserved imp tk st) as [st1 tk1]. cbn [fst] in *.
  rewrite <- T. clear T.
  destruct (type tk1); try discriminate; intros [= <-].
  - unfold Formatter.formatCommand. split_conditions; cbn; auto.
  - unfold Formatter.formatDependentClause. cbn; auto.
  - unfold Formatter.formatJoinCondition. cbn; auto.
  - unfold Formatter.formatLogicalOperator. split_conditions; cbn; auto.
  - unfold Formatter.formatCaseStart. split_conditions; cbn; auto.
  - unfold Formatter.formatOperator, Formatter.formatComma,
      Formatter.formatQuerySeparator. split_conditions; cbn; auto.
  - unfold Formatter.formatLineComment. cbn; auto.
Qed.

(** X19.  The remembered tokens stay well formed: at the start of a
    statement and after every turn of the loop the latest reserved token is
    [EOF_TOKEN] or a token of the statement, and the latest command token
    is [EOF_TOKEN] or of category RESERVED_COMMAND. *)
Theorem formatToken_keeps_bookkeeping (imp : Formatter.Imports) :
  (forall options statement,
     bookkeeping imp (Formatter.begin statement (Formatter.create imp options)))
  /\ (forall st st',
        bookkeeping imp st ->
        Formatter.formatToken imp st = Some st' ->
        bookkeeping imp st').
Proof.
  split.
  - intros options statement. split; left; reflexivity.
  - intros st st' [R C] H.
    destruct (tokenAt (Formatter.tokens st) (Formatter.index st)) as [tk|] eqn:E.
    2:{ unfold Formatter.formatToken in H. rewrite E in H. discriminate. }
    destruct (handlers_keep_previous imp st st' tk E H) as (PR & PC & T).
    unfold bookkeeping. rewrite PR, PC, T. clear PR PC H.
    apply tokenAt_In in E.
    unfold Formatter.noteReserved.
    destruct (Formatter.isReserved imp tk); [|split; assumption].
    match goal with
    | |- context [if ?b then Formatter.toTabularToken _ _ _ else _] => destruct b
    end;
      match goal with
      | |- context [if TokenType_eqb ?a ?b then _ else _] =>
          destruct (TokenType_eqb a b) eqn:Q
      end; cbn; split; auto; right; now apply TokenType_eqb_eq.
Qed.

Lemma formatToken_keeps_bookkeeping_witness :
  exists st',
    Formatter.formatToken Samples.imports
      (Samples.starting Formatter.Always 50 Samples.selectAB) = Some st'
    /\ bookkeeping Samples.imports st'.
Proof.
  eexists. split; [reflexivity|].
  apply (proj2 (formatToken_keeps_bookkeeping Samples.imports)
           (Samples.starting Formatter.Always 50 Samples.selectAB)).
  - apply (proj1 (formatToken_keeps_bookkeeping Samples.imports)).
  - reflexivity.
Defined.

(** X20.  An operator other than the comma and the semicolon is written
    by exactly one call of the string builder that carries its text; no
    newline is added and the indentation is not touched. *)
Theorem formatOperator_newline_only_for_separators (imp : Formatter.Imports)
  (token : Token) (st : Formatter.State) :
  value token <> "," ->
  value token <> ";" ->
  exists c,
    Formatter.formatOperator imp token st = Formatter.call c st
    /\ In c [ Formatter.AddWithSpaceBefore (Formatter.show imp st token);
              Formatter.AddWithSpaceAfter (Formatter.show imp st token);
              Formatter.AddWithoutSpaces (Formatter.show imp st token);
              Formatter.AddWithSpaces (Formatter.show imp st token) ].
Proof.
  intros C S. unfold Formatter.formatOperator.
  apply String.eqb_neq in C. apply String.eqb_neq in S. rewrite C, S.
  split_conditions; eexists; (split; [reflexivity|]); simpl; auto.
Qed.

Lemma formatOperator_newline_only_for_separators_witness :
  exists c,
    Formatter.formatOperator Samples.imports Cases.plus
      (Samples.starting Formatter.Always 50 Samples.selectAB)
    = Formatter.call c (Samples.starting Formatter.Always 50 Samples.selectAB)
    /\ In c [ Formatter.AddWithSpaceBefore "+"; Formatter.AddWithSpaceAfter "+";
              Formatter.AddWithoutSpaces "+"; Formatter.AddWithSpaces "+" ].
Proof.
  apply (formatOperator_newline_only_for_separators Samples.imports Cases.plus
           (Samples.starting Formatter.Always 50 Samples.selectAB));
    discriminate.
Defined.

(** ** Entry points *)


Lemma lookupFormatter_keys (name : string) (table : list (string * Api.Formatter)) :
  In name (map fst table) <-> exists cls, Api.lookupFormatter name table = Some cls.
Proof.
  induction table as [|[key cls] table IH]; simpl.
  - split; [contradiction | intros [? [=]]].
  - destruct (String.eqb_spec name key) as [->|N].
    + split; eauto.
    + rewrite <- IH. split; [intros [E|I]; [congruence | assumption] | auto].
Qed.

(** X21.  A dialect name that passes the guard of [format] always names a
    formatter class: when the validated options carry the same name,
    [format] returns what that class returns, and the lookup in
    [formatters] cannot come back empty. *)
Theorem supported_dialect_has_formatter
  (validateConfig : Api.FormatOptions -> Api.Result Api.FormatOptions)
  (runFormatter : Api.Formatter -> Api.FormatOptions -> Api.JsValue
                  -> Api.Result string)
  (cfg : Api.PartialFormatOptions) (name query : string)
  (options : Api.FormatOptions) :
  Api.p_language cfg = Some (Api.LanguageName name) ->
  Api.unsupportedDialect cfg = None ->
  validateConfig (Api.spread Api.defaultOptions cfg) = Api.Ok options ->
  Api.language options = Api.LanguageName name ->
  exists cls,
    Api.lookupFormatter name Api.formatters = Some cls
    /\ Api.format validateConfig runFormatter (Api.JsString query) cfg
       = runFormatter cls options (Api.JsString query).
Proof.
  intros L U V O.
  assert (In name Api.supportedDialects) as I.
  { unfold Api.unsupportedDialect in U. rewrite L in U.
    destruct (Api.includes Api.supportedDialects name) eqn:E; [|discriminate].
    now apply includes_In. }
  apply lookupFormatter_keys in I. destruct I as [cls F].
  exists cls. split; [exact F|].
  unfold Api.format.
  change (Api.validateQuery (Api.JsString query)) with (@None Api.Error).
  cbv beta iota. now rewrite U, V, O, F.
Qed.

Lemma supported_dialect_has_formatter_witness :
  exists cls,
    Api.lookupFormatter "tsql" Api.formatters = Some cls
    /\ Api.format Samples.acceptAll Samples.echo (Api.JsString "select 1")
         (Samples.onlyLanguage "tsql")
       = Samples.echo cls
           (Api.spread Api.defaultOptions (Samples.onlyLanguage "tsql"))
           (Api.JsString "select 1").
Proof.
  apply (supported_dialect_has_formatter Samples.acceptAll Samples.echo
           (Samples.onlyLanguage "tsql") "tsql" "select 1"); reflexivity.
Defined.

(** X22.  [formatStandardSQL] is [format] for the language ["sql"]: with
    no language given, or ["sql"], and a validation that leaves that
    language in place, both return the same result or throw the same
    error, for every query. *)
Theorem formatStandardSQL_is_format_with_sql
  (validateConfig : Api.FormatOptions -> Api.Result Api.FormatOptions)
  (runFormatter : Api.Formatter -> Api.FormatOptions -> Api.JsValue
                  -> Api.Result string)
  (cfg : Api.PartialFormatOptions) (query : Api.JsValue) :
  Api.p_language cfg = None \/ Api.p_language cfg = Some (Api.LanguageName "sql") ->
  (forall options,
     validateConfig (Api.spread Api.defaultOptions cfg) = Api.Ok options ->
     Api.language options = Api.LanguageName "sql") ->
  Api.format validateConfig runFormatter query cfg
  = formatStandardSQL validateConfig runFormatter query cfg.
Proof.
  intros L K. unfold Api.format, formatStandardSQL.
  destruct (Api.validateQuery query); [reflexivity|].
  assert (Api.unsupportedDialect cfg = None) as ->.
  { unfold Api.unsupportedDialect. destruct L as [-> | ->]; reflexivity. }
  destruct (validateConfig (Api.spread Api.defaultOptions cfg)) as [options|e] eqn:V;
    [|reflexivity].
  now rewrite (K options eq_refl).
Qed.

Lemma formatStandardSQL_is_format_with_sql_witness :
  Api.format Samples.acceptAll Samples.echo (Api.JsString "select 1")
    (Samples.onlyLanguage "sql")
  = formatStandardSQL Samples.acceptAll Samples.echo (Api.JsString "select 1")
      (Samples.onlyLanguage "sql").
Proof.
  apply formatStandardSQL_is_format_with_sql.
  - right. reflexivity.
  - intros options [= <-]. reflexivity.
Defined.
